(** * BytePS torch binding: asynchronous push-pull dispatch (byteps/torch/ops.cc)

    A shallow embedding of [GetOpName], [GetDeviceID], [DoPushPull],
    [PollHandle] and [WaitAndClear], and the properties of the stage plan,
    the tensor identity, the completion continuation and the waiter. *)

From Stdlib Require Import ZArith DecimalString DecimalPos DecimalZ.
From stdpp Require Import gmap strings list.

Local Open Scope string_scope.
Local Open Scope Z_scope.
Local Open Scope list_scope.

(** ** Strings as the C++ code handles them *)

(** [std::to_string(int)]: the decimal text of a signed integer. *)
Definition to_string (n : Z) : string := NilZero.string_of_int (Z.to_int n).

(** [s.c_str()] handed to a [const std::string&] parameter: the temporary
    string is rebuilt from the character pointer, so it stops at the first
    NUL character. *)
Fixpoint c_str (s : string) : string :=
  match s with
  | EmptyString => EmptyString
  | String c r => if Ascii.eqb c Ascii.zero then EmptyString else String c (c_str r)
  end.

Definition empty (s : string) : bool :=
  match s with EmptyString => true | _ => false end.

(** ops.cc, lines 36-42. *)
Definition GetOpName (prefix name : string) (handle : Z) : string :=
  if negb (empty name) then prefix +:+ "." +:+ name
  else prefix +:+ ".noname." +:+ to_string handle.

(** ** Status and exceptions *)

(** Modelled from the spec: [common::Status] is declared in common.h, which
    is not part of the sources at hand; an outcome is either success or a
    failure carrying an error detail. *)
Inductive Status :=
| OK
| Failure (detail : string).

Definition ok (s : Status) : bool :=
  match s with OK => true | Failure _ => false end.

(** What a call can throw: a failed [Status] turned into an exception by
    [ThrowIfError], or a misuse of the handle life cycle. *)
Inductive Exn :=
| StatusError (detail : string)
| UnknownHandle (handle : Z)
| ReleasePending (handle : Z)
| ResolvedTwice (handle : Z).

Inductive Result (A : Type) :=
| Ok (a : A)
| Throw (e : Exn).
Arguments Ok {A} a.
Arguments Throw {A} e.

(** ** The handle registry *)

Module HandleManager.

(** Modelled from the spec: handle_manager.h is not part of the sources at
    hand. The registry maps a live handle to its status cell, [None] while
    pending and [Some outcome] once resolved; handles are allocated by
    incrementing a counter. *)
Record t := Build {
  last_handle : Z;
  results : gmap Z (option Status)
}.

Definition init : t := {| last_handle := 0; results := ∅ |}.

(** Modelled from the spec: [allocate] returns a fresh handle, the counter
    incremented, with pending status. *)
Definition AllocateHandle (m : t) : Z * t :=
  let handle := last_handle m + 1 in
  (handle, {| last_handle := handle; results := <[handle := None]> (results m) |}).

(** Modelled from the spec: [resolve] moves a pending handle to resolved and
    fails on a handle that is unknown or already resolved. *)
Definition MarkDone (handle : Z) (status : Status) (m : t) : Result unit * t :=
  match results m !! handle with
  | None => (Throw (UnknownHandle handle), m)
  | Some (Some _) => (Throw (ResolvedTwice handle), m)
  | Some None =>
      (Ok tt, {| last_handle := last_handle m;
                 results := <[handle := Some status]> (results m) |})
  end.

(** Modelled from the spec: [poll] tells whether the handle is resolved and
    fails on an unknown handle. *)
Definition PollHandle (handle : Z) (m : t) : Result bool :=
  match results m !! handle with
  | None => Throw (UnknownHandle handle)
  | Some cell => Ok (bool_decide (is_Some cell))
  end.

(** Modelled from the spec: [release] removes a resolved handle and returns
    its outcome; it fails on a pending and on an unknown handle. *)
Definition ReleaseHandle (handle : Z) (m : t) : Result Status * t :=
  match results m !! handle with
  | None => (Throw (UnknownHandle handle), m)
  | Some None => (Throw (ReleasePending handle), m)
  | Some (Some status) =>
      (Ok status, {| last_handle := last_handle m;
                     results := delete handle (results m) |})
  end.

(** Every live handle was handed out by the counter. *)
Definition wf (m : t) : Prop :=
  ∀ h cell, results m !! h = Some cell → h ≤ last_handle m.

(** A handle that was handed out and is not pending. *)
Definition settled (handle : Z) (m : t) : Prop :=
  handle ≤ last_handle m ∧ results m !! handle ≠ Some None.

End HandleManager.

(** ** The stage plan *)

(** The members of [common::QueueType] that ops.cc names. *)
Inductive QueueType :=
| COORDINATE_REDUCE
| REDUCE
| COPYD2H
| PUSH
| PULL
| COPYH2D
| COORDINATE_BROADCAST
| BROADCAST.

Global Instance QueueType_eq_dec : EqDecision QueueType.
Proof. solve_decision. Defined.

Definition push_back {A} (v : list A) (x : A) : list A := v ++ [x].

(** ops.cc, lines 78-94, as a function of what [IsRoot] and
    [IsDistributedJob] answer. *)
Definition build_queue_list (is_root is_distributed : bool) : list QueueType :=
  let queue_list := [] in
  if is_root then
    let queue_list := push_back queue_list REDUCE in
    let queue_list :=
      if is_distributed then
        let queue_list := push_back queue_list COPYD2H in
        let queue_list := push_back queue_list PUSH in
        let queue_list := push_back queue_list PULL in
        push_back queue_list COPYH2D
      else queue_list in
    push_back queue_list BROADCAST
  else
    let queue_list := push_back queue_list COORDINATE_REDUCE in
    let queue_list := push_back queue_list REDUCE in
    let queue_list := push_back queue_list COORDINATE_BROADCAST in
    push_back queue_list BROADCAST.

(** Number of occurrences of a stage in a plan. *)
Definition count_stage (q : QueueType) (plan : list QueueType) : nat :=
  length (filter (λ x, x = q) plan).

(** Position of the first occurrence of a stage in a plan. *)
Fixpoint stage_index (q : QueueType) (plan : list QueueType) : option nat :=
  match plan with
  | [] => None
  | x :: rest => if decide (x = q) then Some 0%nat else S <$> stage_index q rest
  end.

(** ** Tensors *)

(** The element types of the exported entry points (IntTensor, LongTensor,
    HalfTensor, FloatTensor, DoubleTensor). *)
Inductive DataType :=
| BYTEPS_INT32
| BYTEPS_INT64
| BYTEPS_FLOAT16
| BYTEPS_FLOAT32
| BYTEPS_FLOAT64.

(** [tensor.device()]: what [is_cuda()] and [index()] answer. *)
Record Device := {
  is_cuda : bool;
  index : Z
}.

(** A [::torch::Tensor] value is a reference: two values with the same
    [storage] share their elements. *)
Record Tensor := {
  storage : nat;
  device : Device;
  scalar_type : DataType;
  data_ptr : Z;
  nbytes : Z
}.

Definition nullptr : Z := 0.

(** Modelled from the spec: the adapter of adapter.h is not part of the
    sources at hand; it wraps a tensor reference without copying and exposes
    its byte size, element type and raw data pointer. *)
Record TorchTensor := {
  tensor_ : Tensor
}.

Definition TorchTensor_size (t : TorchTensor) : Z := nbytes (tensor_ t).
Definition TorchTensor_dtype (t : TorchTensor) : DataType := scalar_type (tensor_ t).
Definition TorchTensor_data (t : TorchTensor) : Z := data_ptr (tensor_ t).

(** Element arithmetic of the tensor library: [x / k] for one element. *)
Class TensorLib (Elem : Type) := {
  div_scalar : Elem → Z → Elem
}.

(** [t.div_(k)]: every element of the storage [t] refers to is divided, in
    place. *)
Definition div_ {Elem} `{TensorLib Elem} (t : Tensor) (k : Z)
    (heap : gmap nat (list Elem)) : gmap nat (list Elem) :=
  alter (map (λ x, div_scalar x k)) (storage t) heap.

(** The elements a tensor reference currently shows. *)
Definition elements_of {Elem} (t : Tensor) (heap : gmap nat (list Elem)) : list Elem :=
  default [] (heap !! storage t).

(** ** The engine *)

(** Modelled from the spec: the readiness token of ready_event.h, trivially
    ready for the host and a mark in the device's stream otherwise. *)
Inductive ReadyEvent :=
| AlreadyReady
| StreamMark (device : Z).

(** The completion continuation of ops.cc, lines 99-105, as the values it
    captures: [[handle, average, tensor]]. *)
Record Callback := {
  cb_handle : Z;
  cb_average : Z;
  cb_tensor : Tensor
}.

(** The engine of common/operations.h, a black box: its state, the constant
    [CPU_DEVICE_ID] and the operations ops.cc calls. [InitTensor] is called
    for its effect only. *)
Class Engine (E : Type) := {
  BPSContext : Type;
  CPU_DEVICE_ID : Z;
  CheckInitialized : E → Status;
  IsTensorInitialized : string → Z → E → bool * E;
  GetContextFromName : string → E → BPSContext * E;
  InitTensor : BPSContext → string → DataType → Z → E → E;
  IsRoot : E → bool;
  IsDistributedJob : E → bool;
  byteps_size : E → Z;
  EnqueueTensor :
    BPSContext → TorchTensor → TorchTensor → ReadyEvent → string → Z → Z → Z →
    Callback → list QueueType → E → Status * E
}.

(** ** Calls observed on one thread *)

Inductive Event :=
| EvCheckInitialized (answer : Status)
| EvAllocateHandle (handle : Z)
| EvIsTensorInitialized (name : string) (size : Z) (answer : bool)
| EvGetContextFromName (name : string)
| EvInitTensor (name : string) (dtype : DataType) (cpubuff : Z)
| EvEnqueueTensor (input output : TorchTensor) (name : string)
    (device priority version : Z) (callback : Callback)
    (queue_list : list QueueType) (answer : Status)
| EvDiv (t : Tensor) (divisor : Z)
| EvMarkDone (handle : Z) (status : Status)
| EvPollHandle (handle : Z) (answer : Result bool)
| EvSleep (milliseconds : Z)
| EvReleaseHandle (handle : Z) (answer : Result Status).

(** ** Process state and the monad of calls *)

Record World (E Elem : Type) := MkWorld {
  handle_manager : HandleManager.t;
  engine : E;
  heap : gmap nat (list Elem);
  trace : list Event
}.
Arguments MkWorld {E Elem}.
Arguments handle_manager {E Elem}.
Arguments engine {E Elem}.
Arguments heap {E Elem}.
Arguments trace {E Elem}.

(** A call either returns or throws; what it did to the state stays. *)
Definition M (W A : Type) : Type := W → Result A * W.

Definition ret {W A} (a : A) : M W A := λ w, (Ok a, w).
Definition throw {W A} (e : Exn) : M W A := λ w, (Throw e, w).
Definition bind {W A B} (m : M W A) (k : A → M W B) : M W B :=
  λ w, match m w with
       | (Ok a, w') => k a w'
       | (Throw e, w') => (Throw e, w')
       end.

Global Instance M_ret {W} : MRet (M W) := λ A, ret.
Global Instance M_bind {W} : MBind (M W) := λ A B k m, bind m k.

(** Modelled from the spec: [ThrowIfError] of the adapter raises a failed
    status as an error carrying its detail, and returns on success. *)
Definition ThrowIfError {W} (status : Status) : M W unit :=
  match status with
  | OK => ret tt
  | Failure detail => throw (StatusError detail)
  end.

(** What other threads do to the registry while this one runs. *)
Inductive EnvAction :=
| EnvAllocateHandle
| EnvMarkDone (handle : Z) (status : Status)
| EnvReleaseHandle (handle : Z).

(** How a bounded run of the waiting loop ends. *)
Inductive Outcome :=
| Returned
| Raised (e : Exn)
| StillWaiting.

Section Dispatcher.

Context {E : Type} `{Engine E} {Elem : Type} `{TensorLib Elem}.

Local Abbreviation World := (World E Elem).

Definition record (ev : Event) (w : World) : World :=
  MkWorld (handle_manager w) (engine w) (heap w) (trace w ++ [ev]).

Definition set_handle_manager (m : HandleManager.t) (w : World) : World :=
  MkWorld m (engine w) (heap w) (trace w).

Definition set_engine (e : E) (w : World) : World :=
  MkWorld (handle_manager w) e (heap w) (trace w).

Definition set_heap (hp : gmap nat (list Elem)) (w : World) : World :=
  MkWorld (handle_manager w) (engine w) hp (trace w).

(** *** The registry, called from a thread *)

Definition handle_manager_AllocateHandle : M World Z :=
  λ w, let '(handle, m) := HandleManager.AllocateHandle (handle_manager w) in
       (Ok handle, record (EvAllocateHandle handle) (set_handle_manager m w)).

Definition handle_manager_MarkDone (handle : Z) (status : Status) : M World unit :=
  λ w, let '(r, m) := HandleManager.MarkDone handle status (handle_manager w) in
       (r, record (EvMarkDone handle status) (set_handle_manager m w)).

Definition handle_manager_PollHandle (handle : Z) : M World bool :=
  λ w, let r := HandleManager.PollHandle handle (handle_manager w) in
       (r, record (EvPollHandle handle r) w).

Definition handle_manager_ReleaseHandle (handle : Z) : M World Status :=
  λ w, let '(r, m) := HandleManager.ReleaseHandle handle (handle_manager w) in
       (r, record (EvReleaseHandle handle r) (set_handle_manager m w)).

(** *** The engine, called from a thread *)

Definition common_CheckInitialized : M World Status :=
  λ w, let status := CheckInitialized (engine w) in
       (Ok status, record (EvCheckInitialized status) w).

Definition common_IsTensorInitialized (name : string) (size : Z) : M World bool :=
  λ w, let '(answer, e) := IsTensorInitialized name size (engine w) in
       (Ok answer, record (EvIsTensorInitialized name size answer) (set_engine e w)).

Definition common_GetContextFromName (name : string) : M World BPSContext :=
  λ w, let '(context, e) := GetContextFromName name (engine w) in
       (Ok context, record (EvGetContextFromName name) (set_engine e w)).

Definition common_InitTensor (context : BPSContext) (name : string)
    (dtype : DataType) (cpubuff : Z) : M World unit :=
  λ w, let e := InitTensor context name dtype cpubuff (engine w) in
       (Ok tt, record (EvInitTensor name dtype cpubuff) (set_engine e w)).

Definition common_IsRoot : M World bool := λ w, (Ok (IsRoot (engine w)), w).

Definition common_IsDistributedJob : M World bool :=
  λ w, (Ok (IsDistributedJob (engine w)), w).

Definition common_byteps_size : M World Z :=
  λ w, (Ok (byteps_size (engine w)), w).

Definition common_EnqueueTensor (context : BPSContext)
    (input output : TorchTensor) (ready_event : ReadyEvent) (name : string)
    (device priority version : Z) (callback : Callback)
    (queue_list : list QueueType) : M World Status :=
  λ w, let '(answer, e) :=
         EnqueueTensor context input output ready_event name device priority
           version callback queue_list (engine w) in
       (Ok answer,
        record (EvEnqueueTensor input output name device priority version
                  callback queue_list answer) (set_engine e w)).

Definition tensor_div_ (t : Tensor) (k : Z) : M World unit :=
  λ w, (Ok tt, record (EvDiv t k) (set_heap (div_ t k (heap w)) w)).

Definition sleep_for (milliseconds : Z) : M World unit :=
  λ w, (Ok tt, record (EvSleep milliseconds) w).

(** *** ops.cc *)

(** ops.cc, lines 44-49. *)
Definition GetDeviceID (tensor : Tensor) : Z :=
  if is_cuda (device tensor) then index (device tensor) else CPU_DEVICE_ID.

(** Modelled from the spec: [RecordReadyEvent] of ready_event.h. *)
Definition RecordReadyEvent (device : Z) : ReadyEvent :=
  if device =? CPU_DEVICE_ID then AlreadyReady else StreamMark device.

(** The body of the continuation, ops.cc lines 99-105, run with the status
    the engine reports. *)
Definition run_callback (callback : Callback) (status : Status) : M World unit :=
  (if negb (cb_average callback =? 0) then
     size ← common_byteps_size;
     tensor_div_ (cb_tensor callback) size
   else mret tt : M World unit);;
  handle_manager_MarkDone (cb_handle callback) status.

(** The stage plan, ops.cc lines 78-94; [IsDistributedJob] is only asked
    on the root. *)
Definition queue_list_for_worker : M World (list QueueType) :=
  is_root ← common_IsRoot;
  if (is_root : bool) then
    is_distributed ← common_IsDistributedJob;
    mret (build_queue_list true is_distributed)
  else mret (build_queue_list false false) : M World (list QueueType).

(** ops.cc, lines 53-110. *)
Definition DoPushPull (tensor output : Tensor) (average : Z) (name : string)
    (version priority : Z) : M World Z :=
  initialized ← common_CheckInitialized;
  ThrowIfError initialized;;
  handle ← handle_manager_AllocateHandle;
  let device := GetDeviceID tensor in
  let ready_event := RecordReadyEvent device in
  let byteps_input := {| tensor_ := tensor |} in
  let byteps_output := {| tensor_ := output |} in
  let tensor_name := GetOpName "byteps" (c_str name) 0 in
  let size := TorchTensor_size byteps_input in
  let dtype := TorchTensor_dtype byteps_input in
  is_initialized ← common_IsTensorInitialized tensor_name size;
  (if negb is_initialized then
     context ← common_GetContextFromName tensor_name;
     common_InitTensor context tensor_name dtype
       (if device =? CPU_DEVICE_ID then TorchTensor_data byteps_input
        else nullptr)
   else mret tt : M World unit);;
  context ← common_GetContextFromName tensor_name;
  queue_list ← queue_list_for_worker;
  enqueue_result ←
    common_EnqueueTensor context byteps_input byteps_output ready_event
      tensor_name device priority version
      {| cb_handle := handle; cb_average := average; cb_tensor := tensor |}
      queue_list;
  ThrowIfError enqueue_result;;
  mret handle.

(** ops.cc, line 112. *)
Definition PollHandle (handle : Z) : M World Z :=
  done ← handle_manager_PollHandle handle;
  mret (if (done : bool) then 1 else 0).

(** One registry call of another thread; what it returns or throws stays
    in that thread. *)
Definition env_step (m : HandleManager.t) (a : EnvAction) : HandleManager.t :=
  match a with
  | EnvAllocateHandle => snd (HandleManager.AllocateHandle m)
  | EnvMarkDone handle status => snd (HandleManager.MarkDone handle status m)
  | EnvReleaseHandle handle => snd (HandleManager.ReleaseHandle handle m)
  end.

Definition interleave (batch : list EnvAction) (w : World) : World :=
  set_handle_manager (foldl env_step (handle_manager w) batch) w.

(** ops.cc, lines 114-120. The loop runs for at most [fuel] sleeps; after
    each poll of this thread the other threads run the next batch of
    [schedule]. *)
Fixpoint WaitAndClear (fuel : nat) (schedule : list (list EnvAction))
    (handle : Z) (w : World) : Outcome * World :=
  match handle_manager_PollHandle handle w with
  | (Throw e, w1) => (Raised e, w1)
  | (Ok true, w1) =>
      let w2 := interleave (hd [] schedule) w1 in
      match (status ← handle_manager_ReleaseHandle handle;
             ThrowIfError status) w2 with
      | (Ok _, w3) => (Returned, w3)
      | (Throw e, w3) => (Raised e, w3)
      end
  | (Ok false, w1) =>
      match fuel with
      | O => (StillWaiting, w1)
      | S fuel' =>
          WaitAndClear fuel' (tl schedule) handle
            (snd (sleep_for 1 (interleave (hd [] schedule) w1)))
      end
  end.

(** The events a call added to the trace. *)
Definition new_events (w w' : World) : list Event :=
  drop (length (trace w)) (trace w').

(** The pointer line 73 hands to [InitTensor]. *)
Definition cpubuff_of (tensor : Tensor) : Z :=
  if GetDeviceID tensor =? CPU_DEVICE_ID then data_ptr tensor else nullptr.

(** The events of the registration step, lines 68-74. *)
Definition registration_events (known : bool) (tensor : Tensor)
    (tensor_name : string) : list Event :=
  if known then []
  else [EvGetContextFromName tensor_name;
        EvInitTensor tensor_name (scalar_type tensor) (cpubuff_of tensor)].

(** The registry as this thread finds it at its poll number [k], counted
    from zero: the first [k] batches of the schedule have run. *)
Fixpoint registry_after (k : nat) (schedule : list (list EnvAction))
    (m : HandleManager.t) : HandleManager.t :=
  match k with
  | O => m
  | S k' => registry_after k' (tl schedule) (foldl env_step m (hd [] schedule))
  end.

(** The events of [k] rounds of the waiting loop. *)
Fixpoint waiting_rounds (k : nat) (handle : Z) : list Event :=
  match k with
  | O => []
  | S k' => EvPollHandle handle (Ok false) :: EvSleep 1 :: waiting_rounds k' handle
  end.

End Dispatcher.

(** Kinds of events. *)
Definition is_InitTensor (ev : Event) : bool :=
  match ev with EvInitTensor _ _ _ => true | _ => false end.

Definition is_EnqueueTensor (ev : Event) : bool :=
  match ev with EvEnqueueTensor _ _ _ _ _ _ _ _ _ => true | _ => false end.

Definition is_ReleaseHandle (ev : Event) : bool :=
  match ev with EvReleaseHandle _ _ => true | _ => false end.

(** Every release in [evs] comes after a poll of the same handle that
    answered true. *)
Definition releases_follow_polls (evs : list Event) : Prop :=
  ∀ i handle answer,
    evs !! i = Some (EvReleaseHandle handle answer) →
    ∃ j, (j < i)%nat ∧ evs !! j = Some (EvPollHandle handle (Ok true)).

(** ** A small engine to run the calls on *)

Module Sim.

(** An engine with fixed answers: it remembers the identities it was asked
    about, the registrations it received and the submissions it accepted. *)
Record SimEngine := Build {
  sim_initialized : Status;
  sim_root : bool;
  sim_distributed : bool;
  sim_size : Z;
  sim_accepts : Status;
  sim_known : list string;
  sim_registered : list (string * DataType * Z);
  sim_queue : list (string * Callback * list QueueType)
}.

Definition ask (name : string) (e : SimEngine) : bool * SimEngine :=
  if bool_decide (name ∈ sim_known e) then (true, e)
  else (false,
        Build (sim_initialized e) (sim_root e) (sim_distributed e) (sim_size e)
          (sim_accepts e) (name :: sim_known e) (sim_registered e) (sim_queue e)).

Definition register (name : string) (dtype : DataType) (cpubuff : Z)
    (e : SimEngine) : SimEngine :=
  Build (sim_initialized e) (sim_root e) (sim_distributed e) (sim_size e)
    (sim_accepts e) (sim_known e)
    (sim_registered e ++ [(name, dtype, cpubuff)]) (sim_queue e).

Definition submit (name : string) (callback : Callback)
    (queue_list : list QueueType) (e : SimEngine) : Status * SimEngine :=
  match sim_accepts e with
  | OK =>
      (OK,
       Build (sim_initialized e) (sim_root e) (sim_distributed e) (sim_size e)
         (sim_accepts e) (sim_known e) (sim_registered e)
         (sim_queue e ++ [(name, callback, queue_list)]))
  | Failure detail => (Failure detail, e)
  end.

Global Instance engine : Engine SimEngine := {|
  BPSContext := string;
  CPU_DEVICE_ID := -1;
  CheckInitialized := sim_initialized;
  IsTensorInitialized := λ name _, ask name;
  GetContextFromName := λ name e, (name, e);
  InitTensor := λ _ name dtype cpubuff, register name dtype cpubuff;
  IsRoot := sim_root;
  IsDistributedJob := sim_distributed;
  byteps_size := sim_size;
  EnqueueTensor := λ _ _ _ _ name _ _ _ callback queue_list,
    submit name callback queue_list
|}.

(** Integer tensors: division truncates. *)
Global Instance int_elements : TensorLib Z := {| div_scalar := Z.quot |}.

(** A running root worker of a distributed job of four workers. *)
Definition ready : SimEngine :=
  Build OK true true 4 OK [] [] [].

Definition stopped : SimEngine :=
  Build (Failure "BytePS has not been initialized") true true 4 OK [] [] [].

Definition rejecting : SimEngine :=
  Build OK true true 4 (Failure "queue closed") [] [] [].

(** Two host tensors with storages of their own, one on an accelerator. *)
Definition grad : Tensor :=
  {| storage := 0; device := {| is_cuda := false; index := 0 |};
     scalar_type := BYTEPS_INT32; data_ptr := 4096; nbytes := 8 |}.

Definition out : Tensor :=
  {| storage := 1; device := {| is_cuda := false; index := 0 |};
     scalar_type := BYTEPS_INT32; data_ptr := 8192; nbytes := 8 |}.

Definition cuda_grad : Tensor :=
  {| storage := 2; device := {| is_cuda := true; index := 0 |};
     scalar_type := BYTEPS_FLOAT32; data_ptr := 12288; nbytes := 8 |}.

Definition memory : gmap nat (list Z) :=
  <[0%nat := [8; 20]]> (<[1%nat := [40; 100]]> ∅).

Definition world (e : SimEngine) (last : Z) : World SimEngine Z :=
  MkWorld (HandleManager.Build last ∅) e memory [].

(** One operation in flight: handle 1 is allocated and pending. *)
Definition waiting : World SimEngine Z :=
  MkWorld (snd (HandleManager.AllocateHandle HandleManager.init)) ready memory [].

End Sim.

(** ** The exported module *)

(** The functions of ops.cc that the module hands out. *)
Inductive Exported :=
| Export_DoPushPull
| Export_PollHandle
| Export_WaitAndClear.

Global Instance Exported_eq_dec : EqDecision Exported.
Proof. solve_decision. Defined.

(** ops.cc, lines 122-141: the bindings of module c_lib in the order of the
    [m.def] calls; the cuda names exist when HAVE_CUDA is set. *)
Definition c_lib (have_cuda : bool) : list (string * Exported) :=
  [("byteps_torch_push_pull_async_torch_IntTensor", Export_DoPushPull);
   ("byteps_torch_push_pull_async_torch_LongTensor", Export_DoPushPull);
   ("byteps_torch_push_pull_async_torch_HalfTensor", Export_DoPushPull);
   ("byteps_torch_push_pull_async_torch_FloatTensor", Export_DoPushPull);
   ("byteps_torch_push_pull_async_torch_DoubleTensor", Export_DoPushPull)] ++
  (if have_cuda then
     [("byteps_torch_push_pull_async_torch_cuda_IntTensor", Export_DoPushPull);
      ("byteps_torch_push_pull_async_torch_cuda_LongTensor", Export_DoPushPull);
      ("byteps_torch_push_pull_async_torch_cuda_HalfTensor", Export_DoPushPull);
      ("byteps_torch_push_pull_async_torch_cuda_FloatTensor", Export_DoPushPull);
      ("byteps_torch_push_pull_async_torch_cuda_DoubleTensor", Export_DoPushPull)]
   else []) ++
  [("byteps_torch_poll", Export_PollHandle);
   ("byteps_torch_wait_and_clear", Export_WaitAndClear)].

(** The identity an event of the engine carries, if it carries one. *)
Definition event_name (ev : Event) : option string :=
  match ev with
  | EvIsTensorInitialized name _ _ => Some name
  | EvGetContextFromName name => Some name
  | EvInitTensor name _ _ => Some name
  | EvEnqueueTensor _ _ name _ _ _ _ _ _ => Some name
  | _ => None
  end.

(** ** Running the calls *)

(** Unfold the setters of the world, sharing what they project. *)
Ltac unfold_world :=
  lazy beta iota zeta delta
    [record set_engine set_handle_manager set_heap interleave sleep_for
     handle_manager engine heap trace fst snd].

(** Two descriptions of one world: the recorded events re-associate. *)
Ltac same_world := unfold_world; rewrite <- ?app_assoc; reflexivity.

Ltac run_monad := unfold mbind, M_bind, bind, mret, M_ret, ret.

Section Runs.

Context {E : Type} `{Engine E} {Elem : Type} `{TensorLib Elem}.

Local Abbreviation World := (World E Elem).

Lemma new_events_app (w w' : World) (evs : list Event) :
  trace w' = trace w ++ evs → new_events w w' = evs.
Proof.
  unfold new_events. intros ->. by rewrite drop_app_length.
Qed.

(** A call on an uninitialized engine stops at line 55. *)
Lemma DoPushPull_stops_uninitialized tensor output average name version priority
    (w : World) detail :
  CheckInitialized (engine w) = Failure detail →
  DoPushPull tensor output average name version priority w =
    (Throw (StatusError detail), record (EvCheckInitialized (Failure detail)) w).
Proof.
  intros Hinit. unfold DoPushPull, mbind, M_bind, bind, common_CheckInitialized.
  rewrite Hinit. reflexivity.
Qed.

(** The plan is the table of [build_queue_list] at the engine's answers. *)
Lemma queue_list_for_worker_run (w : World) :
  queue_list_for_worker w =
    (Ok (build_queue_list (IsRoot (engine w)) (IsDistributedJob (engine w))), w).
Proof.
  unfold queue_list_for_worker, common_IsRoot, common_IsDistributedJob.
  unfold mbind, M_bind, bind, mret, M_ret, ret.
  destruct (IsRoot (engine w)); reflexivity.
Qed.

(** A call on an initialized engine runs lines 57-107 in order. *)
Lemma DoPushPull_initialized tensor output average name version priority
    (w : World) :
  CheckInitialized (engine w) = OK →
  let tensor_name := GetOpName "byteps" (c_str name) 0 in
  let handle := HandleManager.last_handle (handle_manager w) + 1 in
  let callback :=
    {| cb_handle := handle; cb_average := average; cb_tensor := tensor |} in
  ∃ known e1 e2 context e3 answer e4,
    IsTensorInitialized tensor_name (nbytes tensor) (engine w) = (known, e1) ∧
    e2 = (if known then e1
          else InitTensor (fst (GetContextFromName tensor_name e1)) tensor_name
                 (scalar_type tensor) (cpubuff_of tensor)
                 (snd (GetContextFromName tensor_name e1))) ∧
    GetContextFromName tensor_name e2 = (context, e3) ∧
    EnqueueTensor context {| tensor_ := tensor |} {| tensor_ := output |}
      (RecordReadyEvent (GetDeviceID tensor)) tensor_name (GetDeviceID tensor)
      priority version callback
      (build_queue_list (IsRoot e3) (IsDistributedJob e3)) e3 = (answer, e4) ∧
    DoPushPull tensor output average name version priority w =
      (match answer with
       | OK => Ok handle
       | Failure detail => Throw (StatusError detail)
       end,
       MkWorld (snd (HandleManager.AllocateHandle (handle_manager w))) e4 (heap w)
         (trace w ++
          [EvCheckInitialized OK;
           EvAllocateHandle handle;
           EvIsTensorInitialized tensor_name (nbytes tensor) known] ++
          registration_events known tensor tensor_name ++
          [EvGetContextFromName tensor_name;
           EvEnqueueTensor {| tensor_ := tensor |} {| tensor_ := output |}
             tensor_name (GetDeviceID tensor) priority version callback
             (build_queue_list (IsRoot e3) (IsDistributedJob e3)) answer])).
Proof.
  intros Hinit. cbv zeta.
  remember (GetOpName "byteps" (c_str name) 0) as tensor_name eqn:Hname.
  remember (HandleManager.last_handle (handle_manager w) + 1) as handle eqn:Hhandle.
  destruct (IsTensorInitialized tensor_name (nbytes tensor) (engine w))
    as [known e1] eqn:Hknown.
  destruct (GetContextFromName tensor_name e1) as [context0 e1'] eqn:Hctx0.
  remember (if known then e1
            else InitTensor context0 tensor_name (scalar_type tensor)
                   (cpubuff_of tensor) e1') as e2 eqn:He2.
  destruct (GetContextFromName tensor_name e2) as [context e3] eqn:Hctx.
  destruct (EnqueueTensor context {| tensor_ := tensor |} {| tensor_ := output |}
      (RecordReadyEvent (GetDeviceID tensor)) tensor_name (GetDeviceID tensor)
      priority version
      {| cb_handle := handle; cb_average := average; cb_tensor := tensor |}
      (build_queue_list (IsRoot e3) (IsDistributedJob e3)) e3)
    as [answer e4] eqn:Henq.
  exists known, e1, e2, context, e3, answer, e4.
  split; [done|]. split; [by rewrite He2, Hctx0|]. split; [done|]. split; [done|].
  unfold DoPushPull, common_CheckInitialized,
    handle_manager_AllocateHandle, common_IsTensorInitialized,
    common_GetContextFromName, common_InitTensor,
    common_EnqueueTensor, registration_events, cpubuff_of,
    TorchTensor_size, TorchTensor_dtype, TorchTensor_data in *.
  unfold mbind, M_bind, bind, mret, M_ret, ret.
  rewrite Hinit.
  cbn -[queue_list_for_worker build_queue_list].
  rewrite <- Hname, <- Hhandle, Hknown.
  destruct known; cbn -[queue_list_for_worker build_queue_list].
  - subst e2. rewrite Hctx, queue_list_for_worker_run.
    cbn -[build_queue_list]. rewrite Henq.
    destruct answer; cbn -[build_queue_list]; same_world.
  - subst e2. rewrite Hctx0.
    cbn -[queue_list_for_worker build_queue_list].
    rewrite Hctx, queue_list_for_worker_run.
    cbn -[build_queue_list]. rewrite Henq.
    destruct answer; cbn -[build_queue_list]; same_world.
Qed.

(** The three rows of the stage-plan table. *)
Lemma build_queue_list_table :
  build_queue_list true false = [REDUCE; BROADCAST] ∧
  build_queue_list true true =
    [REDUCE; COPYD2H; PUSH; PULL; COPYH2D; BROADCAST] ∧
  ∀ is_distributed,
    build_queue_list false is_distributed =
      [COORDINATE_REDUCE; REDUCE; COORDINATE_BROADCAST; BROADCAST].
Proof. repeat split. Qed.

(** C4: on an initialized engine, DoPushPull ends with one submission; the
    stage plan it submits is the value of [build_queue_list] at what
    IsRoot and IsDistributedJob answer in the engine state [e] the
    submission is made in: [REDUCE; BROADCAST] on a root of a
    non-distributed job, [REDUCE; COPYD2H; PUSH; PULL; COPYH2D; BROADCAST]
    on a root of a distributed job, and [COORDINATE_REDUCE; REDUCE;
    COORDINATE_BROADCAST; BROADCAST] on a non-root worker, whatever the
    distributed flag. *)
Theorem DoPushPull_stage_plan tensor output average name version priority
    (w : World) :
  CheckInitialized (engine w) = OK →
  let w' := snd (DoPushPull tensor output average name version priority w) in
  ∃ e context before tensor_name device callback answer plan,
    new_events w w' =
      before ++ [EvEnqueueTensor {| tensor_ := tensor |} {| tensor_ := output |}
                   tensor_name device priority version callback plan answer] ∧
    EnqueueTensor context {| tensor_ := tensor |} {| tensor_ := output |}
      (RecordReadyEvent device) tensor_name device priority version callback
      plan e = (answer, engine w') ∧
    plan = build_queue_list (IsRoot e) (IsDistributedJob e) ∧
    plan = match IsRoot e, IsDistributedJob e with
           | true, false => [REDUCE; BROADCAST]
           | true, true => [REDUCE; COPYD2H; PUSH; PULL; COPYH2D; BROADCAST]
           | false, _ =>
               [COORDINATE_REDUCE; REDUCE; COORDINATE_BROADCAST; BROADCAST]
           end.
Proof.
  intros Hinit w'.
  destruct (DoPushPull_initialized tensor output average name version priority
              w Hinit)
    as (known & e1 & e2 & context & e3 & answer & e4 & _ & _ & _ & Henq & Hrun).
  subst w'. rewrite Hrun. cbn [snd engine].
  set (tensor_name := GetOpName "byteps" (c_str name) 0) in *.
  set (handle := HandleManager.last_handle (handle_manager w) + 1) in *.
  exists e3, context,
    ([EvCheckInitialized OK; EvAllocateHandle handle;
      EvIsTensorInitialized tensor_name (nbytes tensor) known] ++
     registration_events known tensor tensor_name ++
     [EvGetContextFromName tensor_name]).
  eexists _, _, _, answer, _.
  split; [|split; [exact Henq|split; [reflexivity|]]].
  - erewrite new_events_app by reflexivity.
    rewrite <- !app_assoc. reflexivity.
  - destruct (IsRoot e3), (IsDistributedJob e3); reflexivity.
Qed.

(** C8: for every combination of the two booleans the stage plan holds
    exactly one REDUCE and exactly one BROADCAST, the REDUCE stands before
    the BROADCAST, and BROADCAST is the last stage; this is the plan
    DoPushPull computes on any engine. *)
Theorem stage_plan_reduce_then_broadcast (is_root is_distributed : bool)
    (w : World) :
  let plan := build_queue_list is_root is_distributed in
  count_stage REDUCE plan = 1%nat ∧
  count_stage BROADCAST plan = 1%nat ∧
  (∃ i j, stage_index REDUCE plan = Some i ∧
          stage_index BROADCAST plan = Some j ∧ (i < j)%nat) ∧
  last plan = Some BROADCAST ∧
  ∃ r d, queue_list_for_worker w = (Ok (build_queue_list r d), w).
Proof.
  cbv zeta. split; [|split; [|split; [|split]]].
  - destruct is_root, is_distributed; reflexivity.
  - destruct is_root, is_distributed; reflexivity.
  - destruct is_root, is_distributed; cbn; eexists _, _;
      (split; [reflexivity|split; [reflexivity|lia]]).
  - destruct is_root, is_distributed; reflexivity.
  - rewrite queue_list_for_worker_run. eauto.
Qed.

(** C5: when the engine reports itself uninitialized, DoPushPull throws the
    error of that status, allocates no handle and leaves the handle
    registry, the engine and the tensors as they were. *)
Theorem DoPushPull_uninitialized_engine tensor output average name version
    priority (w : World) detail :
  CheckInitialized (engine w) = Failure detail →
  let '(r, w') := DoPushPull tensor output average name version priority w in
  r = Throw (StatusError detail) ∧
  handle_manager w' = handle_manager w ∧
  new_events w w' = [EvCheckInitialized (Failure detail)] ∧
  (∀ handle, EvAllocateHandle handle ∉ new_events w w') ∧
  engine w' = engine w ∧ heap w' = heap w.
Proof.
  intros Hinit. rewrite (DoPushPull_stops_uninitialized _ _ _ _ _ _ _ _ Hinit).
  assert (Hnew : new_events w (record (EvCheckInitialized (Failure detail)) w)
                 = [EvCheckInitialized (Failure detail)])
    by (apply new_events_app; reflexivity).
  rewrite Hnew. repeat split.
  intros handle Hin. apply list_elem_of_singleton in Hin. discriminate.
Qed.

(** What the continuation does when the average flag is set. *)
Lemma run_callback_average callback status (w : World) :
  cb_average callback ≠ 0 →
  run_callback callback status w =
    (fst (HandleManager.MarkDone (cb_handle callback) status (handle_manager w)),
     MkWorld
       (snd (HandleManager.MarkDone (cb_handle callback) status (handle_manager w)))
       (engine w)
       (div_ (cb_tensor callback) (byteps_size (engine w)) (heap w))
       (trace w ++ [EvDiv (cb_tensor callback) (byteps_size (engine w));
                    EvMarkDone (cb_handle callback) status])).
Proof.
  intros Havg. destruct w as [m e hp tr].
  unfold run_callback, common_byteps_size, tensor_div_,
    handle_manager_MarkDone. run_monad.
  apply Z.eqb_neq in Havg. rewrite Havg. cbn.
  destruct (HandleManager.MarkDone (cb_handle callback) status m).
  cbn. same_world.
Qed.

(** What the continuation does when the average flag is clear. *)
Lemma run_callback_plain callback status (w : World) :
  cb_average callback = 0 →
  run_callback callback status w =
    (fst (HandleManager.MarkDone (cb_handle callback) status (handle_manager w)),
     MkWorld
       (snd (HandleManager.MarkDone (cb_handle callback) status (handle_manager w)))
       (engine w) (heap w)
       (trace w ++ [EvMarkDone (cb_handle callback) status])).
Proof.
  intros Havg. destruct w as [m e hp tr].
  unfold run_callback, handle_manager_MarkDone. run_monad.
  rewrite Havg. cbn.
  destruct (HandleManager.MarkDone (cb_handle callback) status m).
  reflexivity.
Qed.

(** Dividing one tensor leaves every other storage alone. *)
Lemma div_other_storage (t other : Tensor) k (hp : gmap nat (list Elem)) :
  storage other ≠ storage t →
  elements_of other (div_ t k hp) = elements_of other hp.
Proof.
  intros Hne. unfold elements_of, div_. by rewrite lookup_alter_ne.
Qed.

Lemma div_same_storage (t other : Tensor) k (hp : gmap nat (list Elem)) :
  storage other = storage t →
  elements_of other (div_ t k hp) =
    map (λ x, div_scalar x k) (elements_of other hp).
Proof.
  intros Heq. unfold elements_of, div_. rewrite Heq, lookup_alter_eq.
  by destruct (hp !! storage t).
Qed.

(** The continuation touches the storage of the tensor it captured and no
    other. *)
Lemma run_callback_other_tensor callback status (other : Tensor) (w : World) :
  storage other ≠ storage (cb_tensor callback) →
  elements_of other (heap (snd (run_callback callback status w))) =
    elements_of other (heap w).
Proof.
  intros Hne. destruct (decide (cb_average callback = 0)) as [Hzero|Hset].
  - by rewrite run_callback_plain.
  - rewrite run_callback_average by done. cbn [snd heap].
    by apply div_other_storage.
Qed.

(** With the average flag set it divides every tensor that shares that
    storage, so an output tensor that is the input tensor is divided. *)
Lemma run_callback_same_tensor callback status (other : Tensor) (w : World) :
  cb_average callback ≠ 0 →
  storage other = storage (cb_tensor callback) →
  elements_of other (heap (snd (run_callback callback status w))) =
    map (λ x, div_scalar x (byteps_size (engine w))) (elements_of other (heap w)).
Proof.
  intros Hset Heq. rewrite run_callback_average by done. cbn [snd heap].
  by apply div_same_storage.
Qed.

(** C3 (amended): when the submission of a DoPushPull call is answered
    with a failure, the call throws that failure to its caller and returns
    no handle; the handle allocated at line 57, which the continuation
    captured, stays in the registry as a pending entry. *)
Theorem DoPushPull_submission_failure tensor output average name version
    priority (w : World) input output' tensor_name device priority' version'
    callback plan detail :
  last (trace (snd (DoPushPull tensor output average name version priority w))) =
    Some (EvEnqueueTensor input output' tensor_name device priority' version'
            callback plan (Failure detail)) →
  let '(r, w') := DoPushPull tensor output average name version priority w in
  let handle := HandleManager.last_handle (handle_manager w) + 1 in
  r = Throw (StatusError detail) ∧
  cb_handle callback = handle ∧
  HandleManager.results (handle_manager w') =
    <[handle := None]> (HandleManager.results (handle_manager w)) ∧
  HandleManager.results (handle_manager w') !! handle = Some None.
Proof.
  destruct (CheckInitialized (engine w)) as [|detail0] eqn:Hinit.
  - destruct (DoPushPull_initialized tensor output average name version
                priority w Hinit)
      as (known & e1 & e2 & context & e3 & answer & e4 & _ & _ & _ & _ & Hrun).
    rewrite Hrun. cbv beta iota zeta. cbn [snd trace handle_manager]. intros Hlast.
    rewrite !last_app in Hlast. cbn [last] in Hlast.
    injection Hlast as <- <- <- <- <- <- <- <- ->.
    cbn [cb_handle HandleManager.AllocateHandle snd HandleManager.results].
    repeat split. apply lookup_insert_eq.
  - rewrite (DoPushPull_stops_uninitialized _ _ _ _ _ _ _ _ Hinit).
    unfold record. cbv beta iota zeta. cbn [snd trace].
    rewrite last_snoc. discriminate.
Qed.

(** C7: on an initialized engine, DoPushPull calls InitTensor exactly when
    IsTensorInitialized answers false for the identity, never for another
    identity; its events end with the one submission of that identity, and
    every InitTensor event stands before the EnqueueTensor event. *)
Theorem registration_before_submission tensor output average name version
    priority (w : World) :
  CheckInitialized (engine w) = OK →
  let tensor_name := GetOpName "byteps" (c_str name) 0 in
  let known := fst (IsTensorInitialized tensor_name (nbytes tensor) (engine w)) in
  let evs :=
    new_events w (snd (DoPushPull tensor output average name version priority w)) in
  ((∃ dtype cpubuff, EvInitTensor tensor_name dtype cpubuff ∈ evs) ↔
   known = false) ∧
  (∀ n dtype cpubuff, EvInitTensor n dtype cpubuff ∈ evs → n = tensor_name) ∧
  length (List.filter is_InitTensor evs) = (if known then 0 else 1)%nat ∧
  (∃ before device callback plan answer,
     evs = before ++
           [EvEnqueueTensor {| tensor_ := tensor |} {| tensor_ := output |}
              tensor_name device priority version callback plan answer] ∧
     List.filter is_EnqueueTensor before = []) ∧
  (∀ i j a b,
     evs !! i = Some a → evs !! j = Some b →
     is_InitTensor a = true → is_EnqueueTensor b = true → (i < j)%nat).
Proof.
  intros Hinit tensor_name known evs.
  destruct (DoPushPull_initialized tensor output average name version priority
              w Hinit)
    as (known' & e1 & e2 & context & e3 & answer & e4 & Hknown & _ & _ & _ & Hrun).
  fold tensor_name in Hknown, Hrun.
  assert (Hk : known = known') by (subst known; by rewrite Hknown).
  assert (Hevs : evs =
    [EvCheckInitialized OK;
     EvAllocateHandle (HandleManager.last_handle (handle_manager w) + 1);
     EvIsTensorInitialized tensor_name (nbytes tensor) known'] ++
    registration_events known' tensor tensor_name ++
    [EvGetContextFromName tensor_name;
     EvEnqueueTensor {| tensor_ := tensor |} {| tensor_ := output |}
       tensor_name (GetDeviceID tensor) priority version
       {| cb_handle := HandleManager.last_handle (handle_manager w) + 1;
          cb_average := average; cb_tensor := tensor |}
       (build_queue_list (IsRoot e3) (IsDistributedJob e3)) answer]).
  { subst evs. rewrite Hrun. by apply new_events_app. }
  clearbody evs known. subst known evs. clear Hrun Hknown.
  destruct known'; cbn [registration_events app].
  - split; [|split; [|split; [|split]]].
    + split; [|done]. intros (dtype & cpubuff & Hin).
      repeat (apply elem_of_cons in Hin as [Hin|Hin]; [discriminate|]).
      by apply elem_of_nil in Hin.
    + intros n dtype cpubuff Hin.
      repeat (apply elem_of_cons in Hin as [Hin|Hin]; [discriminate|]).
      by apply elem_of_nil in Hin.
    + reflexivity.
    + eexists [_; _; _; _], _, _, _, _. split; reflexivity.
    + intros i j a b Hi Hj Ha Hb.
      do 5 (destruct i as [|i]; [cbn in Hi; injection Hi as <-; discriminate|]).
      discriminate.
  - split; [|split; [|split; [|split]]].
    + split; [done|]. intros _. eexists _, _.
      rewrite !elem_of_cons. do 4 right. left. reflexivity.
    + intros n dtype cpubuff Hin.
      repeat (apply elem_of_cons in Hin as [Hin|Hin];
              [first [discriminate | by injection Hin]|]).
      by apply elem_of_nil in Hin.
    + reflexivity.
    + eexists [_; _; _; _; _; _], _, _, _, _. split; reflexivity.
    + intros i j a b Hi Hj Ha Hb.
      do 7 (destruct j as [|j]; [cbn in Hj; injection Hj as <-; try discriminate|]);
        [|discriminate].
      do 7 (destruct i as [|i]; [cbn in Hi; injection Hi as <-; try discriminate; try lia|]).
      discriminate.
Qed.

(** C9: when DoPushPull registers a tensor, the pointer InitTensor
    receives is the input tensor's data pointer for a host tensor and the
    null pointer for an accelerator tensor, so that, for a tensor with
    data, it is the data pointer exactly on the host. The index of an
    accelerator device is taken to differ from CPU_DEVICE_ID. *)
Theorem registration_host_pointer tensor output average name version priority
    (w : World) :
  CheckInitialized (engine w) = OK →
  (is_cuda (device tensor) = true → index (device tensor) ≠ CPU_DEVICE_ID) →
  let tensor_name := GetOpName "byteps" (c_str name) 0 in
  fst (IsTensorInitialized tensor_name (nbytes tensor) (engine w)) = false →
  let evs :=
    new_events w (snd (DoPushPull tensor output average name version priority w)) in
  ∃ cpubuff,
    List.filter is_InitTensor evs =
      [EvInitTensor tensor_name (scalar_type tensor) cpubuff] ∧
    (GetDeviceID tensor = CPU_DEVICE_ID ↔ is_cuda (device tensor) = false) ∧
    (is_cuda (device tensor) = false → cpubuff = data_ptr tensor) ∧
    (is_cuda (device tensor) = true → cpubuff = nullptr) ∧
    (data_ptr tensor ≠ nullptr →
     (cpubuff = data_ptr tensor ↔ is_cuda (device tensor) = false)).
Proof.
  intros Hinit Hindex tensor_name Hknown evs.
  destruct (DoPushPull_initialized tensor output average name version priority
              w Hinit)
    as (known' & e1 & e2 & context & e3 & answer & e4 & Hknown' & _ & _ & _ & Hrun).
  fold tensor_name in Hknown', Hrun.
  rewrite Hknown' in Hknown. cbn [fst] in Hknown. subst known'.
  assert (Hevs : List.filter is_InitTensor evs =
    [EvInitTensor tensor_name (scalar_type tensor) (cpubuff_of tensor)]).
  { subst evs. rewrite Hrun. erewrite new_events_app by reflexivity.
    reflexivity. }
  exists (cpubuff_of tensor). split; [exact Hevs|].
  unfold cpubuff_of, GetDeviceID.
  destruct (is_cuda (device tensor)) eqn:Hcuda.
  - specialize (Hindex eq_refl).
    apply Z.eqb_neq in Hindex as Hneq. rewrite Hneq.
    repeat split; try done. all: intros; congruence.
  - rewrite Z.eqb_refl. repeat split; done.
Qed.

End Runs.

(** ** Waiting for a handle *)

Section Waiter.

Context {E : Type} `{Engine E} {Elem : Type} `{TensorLib Elem}.

Local Abbreviation World := (World E Elem).

(** *** Single registry calls *)

Lemma poll_pending handle (w : World) :
  HandleManager.results (handle_manager w) !! handle = Some None →
  handle_manager_PollHandle handle w =
    (Ok false, record (EvPollHandle handle (Ok false)) w).
Proof.
  intros Hcell. unfold handle_manager_PollHandle, HandleManager.PollHandle.
  rewrite Hcell. reflexivity.
Qed.

Lemma poll_resolved handle status (w : World) :
  HandleManager.results (handle_manager w) !! handle = Some (Some status) →
  handle_manager_PollHandle handle w =
    (Ok true, record (EvPollHandle handle (Ok true)) w).
Proof.
  intros Hcell. unfold handle_manager_PollHandle, HandleManager.PollHandle.
  rewrite Hcell. reflexivity.
Qed.

Lemma poll_unknown handle (w : World) :
  HandleManager.results (handle_manager w) !! handle = None →
  handle_manager_PollHandle handle w =
    (Throw (UnknownHandle handle),
     record (EvPollHandle handle (Throw (UnknownHandle handle))) w).
Proof.
  intros Hcell. unfold handle_manager_PollHandle, HandleManager.PollHandle.
  rewrite Hcell. reflexivity.
Qed.

Lemma release_resolved handle status (w : World) :
  HandleManager.results (handle_manager w) !! handle = Some (Some status) →
  handle_manager_ReleaseHandle handle w =
    (Ok status,
     record (EvReleaseHandle handle (Ok status))
       (set_handle_manager
          (HandleManager.Build (HandleManager.last_handle (handle_manager w))
             (delete handle (HandleManager.results (handle_manager w)))) w)).
Proof.
  intros Hcell. unfold handle_manager_ReleaseHandle, HandleManager.ReleaseHandle.
  rewrite Hcell. reflexivity.
Qed.

Lemma release_unknown handle (w : World) :
  HandleManager.results (handle_manager w) !! handle = None →
  handle_manager_ReleaseHandle handle w =
    (Throw (UnknownHandle handle),
     record (EvReleaseHandle handle (Throw (UnknownHandle handle))) w).
Proof.
  intros Hcell. unfold handle_manager_ReleaseHandle, HandleManager.ReleaseHandle.
  rewrite Hcell. destruct w; reflexivity.
Qed.

(** *** What other threads can and cannot do to an entry *)

Lemma wf_init : HandleManager.wf HandleManager.init.
Proof.
  intros h cell Hcell. cbn in Hcell. by rewrite lookup_empty in Hcell.
Qed.

Lemma env_step_wf (m : HandleManager.t) (a : EnvAction) :
  HandleManager.wf m → HandleManager.wf (env_step m a).
Proof.
  intros Hwf h cell. destruct a as [|h' status|h']; cbn.
  - intros Hcell. destruct (decide (HandleManager.last_handle m + 1 = h)) as [<-|Hne].
    + lia.
    + rewrite lookup_insert_ne in Hcell by done.
      specialize (Hwf h cell Hcell). lia.
  - unfold HandleManager.MarkDone.
    destruct (HandleManager.results m !! h') as [[s|]|] eqn:Hh'; cbn; eauto.
    intros Hcell. destruct (decide (h' = h)) as [<-|Hne].
    + eapply Hwf; eauto.
    + rewrite lookup_insert_ne in Hcell by done. eauto.
  - unfold HandleManager.ReleaseHandle.
    destruct (HandleManager.results m !! h') as [[s|]|] eqn:Hh'; cbn; eauto.
    intros Hcell. apply lookup_delete_Some in Hcell as [_ Hcell]. eauto.
Qed.

Lemma interleave_wf (batch : list EnvAction) (m : HandleManager.t) :
  HandleManager.wf m → HandleManager.wf (foldl env_step m batch).
Proof.
  revert m. induction batch as [|a batch IH]; intros m Hwf; [done|].
  cbn. apply IH, env_step_wf, Hwf.
Qed.

(** A handle that was handed out and is not pending does not become
    pending again: allocation only creates entries above the counter. *)
Lemma env_step_settled handle (m : HandleManager.t) (a : EnvAction) :
  HandleManager.settled handle m → HandleManager.settled handle (env_step m a).
Proof.
  intros [Hle Hcell]. destruct a as [|h' status|h']; cbn.
  - split; cbn; [lia|]. rewrite lookup_insert_ne by lia. done.
  - unfold HandleManager.MarkDone.
    destruct (HandleManager.results m !! h') as [[s|]|] eqn:Hh'; cbn;
      try (split; done).
    split; cbn; [done|].
    destruct (decide (h' = handle)) as [->|Hne].
    + rewrite lookup_insert_eq. done.
    + rewrite lookup_insert_ne by done. done.
  - unfold HandleManager.ReleaseHandle.
    destruct (HandleManager.results m !! h') as [[s|]|] eqn:Hh'; cbn;
      try (split; done).
    split; cbn; [done|].
    destruct (decide (h' = handle)) as [->|Hne].
    + rewrite lookup_delete_eq. done.
    + rewrite lookup_delete_ne by done. done.
Qed.

Lemma interleave_settled handle (batch : list EnvAction) (m : HandleManager.t) :
  HandleManager.settled handle m →
  HandleManager.settled handle (foldl env_step m batch).
Proof.
  revert m. induction batch as [|a batch IH]; intros m Hs; [done|].
  cbn. apply IH, env_step_settled, Hs.
Qed.

(** *** The loop *)

Lemma WaitAndClear_eq fuel schedule handle (w : World) :
  WaitAndClear fuel schedule handle w =
    match handle_manager_PollHandle handle w with
    | (Throw e, w1) => (Raised e, w1)
    | (Ok true, w1) =>
        let w2 := interleave (hd [] schedule) w1 in
        match (status ← handle_manager_ReleaseHandle handle;
               ThrowIfError status) w2 with
        | (Ok _, w3) => (Returned, w3)
        | (Throw e, w3) => (Raised e, w3)
        end
    | (Ok false, w1) =>
        match fuel with
        | O => (StillWaiting, w1)
        | S fuel' =>
            WaitAndClear fuel' (tl schedule) handle
              (snd (sleep_for 1 (interleave (hd [] schedule) w1)))
        end
    end.
Proof. destruct fuel; reflexivity. Qed.

(** The last two steps, once a poll has answered true. *)
Lemma release_after_poll handle status batch (w : World) :
  HandleManager.results (foldl env_step (handle_manager w) batch) !! handle =
    Some (Some status) →
  ∃ w',
    (status' ← handle_manager_ReleaseHandle handle; ThrowIfError status')
      (interleave batch (record (EvPollHandle handle (Ok true)) w)) =
      (match status with OK => Ok tt | Failure detail => Throw (StatusError detail) end,
       w') ∧
    trace w' = trace w ++ [EvPollHandle handle (Ok true);
                           EvReleaseHandle handle (Ok status)] ∧
    HandleManager.results (handle_manager w') !! handle = None.
Proof.
  intros Hcell. run_monad.
  rewrite (release_resolved handle status) by exact Hcell.
  destruct w as [m e hp tr]. destruct status; cbn [ThrowIfError];
    eexists; (split; [reflexivity|]); unfold_world;
    (split; [by rewrite <- app_assoc | apply lookup_delete_eq]).
Qed.

Lemma WaitAndClear_resolved_at handle status (k : nat) :
  ∀ schedule (w : World) fuel,
  (∀ i, (i < k)%nat →
     HandleManager.results (registry_after i schedule (handle_manager w))
       !! handle = Some None) →
  (∃ status0,
     HandleManager.results (registry_after k schedule (handle_manager w))
       !! handle = Some (Some status0)) →
  HandleManager.results (registry_after (S k) schedule (handle_manager w))
    !! handle = Some (Some status) →
  ((fuel < k)%nat →
     fst (WaitAndClear fuel schedule handle w) = StillWaiting) ∧
  ((k ≤ fuel)%nat →
     ∃ w',
       WaitAndClear fuel schedule handle w =
         (match status with
          | OK => Returned
          | Failure detail => Raised (StatusError detail)
          end, w') ∧
       trace w' = trace w ++ waiting_rounds k handle ++
                  [EvPollHandle handle (Ok true);
                   EvReleaseHandle handle (Ok status)] ∧
       HandleManager.results (handle_manager w') !! handle = None).
Proof.
  induction k as [|k IH]; intros schedule w fuel Hpending [status0 Hdone] Hkept.
  - split; [lia|]. intros _. rewrite WaitAndClear_eq.
    cbn [registry_after] in Hdone, Hkept.
    rewrite (poll_resolved handle status0) by exact Hdone. cbv zeta.
    destruct (release_after_poll handle status (hd [] schedule) w Hkept)
      as (w' & Hrun & Htrace & Hgone).
    rewrite Hrun. exists w'. cbn [waiting_rounds app].
    destruct status; auto.
  - rewrite WaitAndClear_eq.
    rewrite poll_pending by (apply (Hpending 0%nat); lia).
    destruct fuel as [|fuel].
    + split; [reflexivity|lia].
    + set (w3 := snd (sleep_for 1
                   (interleave (hd [] schedule)
                      (record (EvPollHandle handle (Ok false)) w)))).
      assert (Hm : handle_manager w3 =
                   foldl env_step (handle_manager w) (hd [] schedule))
        by (destruct w; reflexivity).
      assert (Htr : trace w3 = trace w ++ [EvPollHandle handle (Ok false); EvSleep 1])
        by (destruct w; subst w3; unfold_world; by rewrite <- app_assoc).
      destruct (IH (tl schedule) w3 fuel) as [Hwait Hret].
      * intros i Hi. rewrite Hm. apply (Hpending (S i)). lia.
      * exists status0. rewrite Hm. exact Hdone.
      * rewrite Hm. exact Hkept.
      * split; [intros; apply Hwait; lia|].
        intros Hfuel. destruct Hret as (w' & Hrun & Htrace & Hgone); [lia|].
        exists w'. split; [exact Hrun|]. split; [|exact Hgone].
        rewrite Htrace, Htr. cbn [waiting_rounds]. rewrite <- app_assoc.
        reflexivity.
Qed.

Lemma waiting_rounds_no_release (k : nat) handle :
  List.filter is_ReleaseHandle (waiting_rounds k handle) = [].
Proof. induction k as [|k IH]; [done|]. cbn. exact IH. Qed.

(** C6: let the handle be pending at the first [k] polls of WaitAndClear,
    resolved at the next one, and still there with outcome [status] when
    the release follows. Then the loop is still waiting after fewer than
    [k] sleeps; given [k] sleeps or more it polls [k] times in vain with a
    sleep of one millisecond after each, polls once more, releases the
    handle once, so that its entry is gone, and raises the stored outcome
    as an error if and only if it is a failure. *)
Theorem WaitAndClear_waits_then_releases handle status (k : nat) schedule
    (w : World) fuel :
  (∀ i, (i < k)%nat →
     HandleManager.results (registry_after i schedule (handle_manager w))
       !! handle = Some None) →
  (∃ status0,
     HandleManager.results (registry_after k schedule (handle_manager w))
       !! handle = Some (Some status0)) →
  HandleManager.results (registry_after (S k) schedule (handle_manager w))
    !! handle = Some (Some status) →
  ((fuel < k)%nat →
     fst (WaitAndClear fuel schedule handle w) = StillWaiting) ∧
  ((k ≤ fuel)%nat →
     let '(outcome, w') := WaitAndClear fuel schedule handle w in
     outcome = match status with
               | OK => Returned
               | Failure detail => Raised (StatusError detail)
               end ∧
     ((∃ e, outcome = Raised e) ↔ ok status = false) ∧
     new_events w w' =
       waiting_rounds k handle ++
       [EvPollHandle handle (Ok true); EvReleaseHandle handle (Ok status)] ∧
     length (List.filter is_ReleaseHandle (new_events w w')) = 1%nat ∧
     HandleManager.results (handle_manager w') !! handle = None).
Proof.
  intros Hpending Hdone Hkept.
  destruct (WaitAndClear_resolved_at handle status k schedule w fuel
              Hpending Hdone Hkept) as [Hwait Hret].
  split; [exact Hwait|]. intros Hfuel.
  destruct (Hret Hfuel) as (w' & Hrun & Htrace & Hgone).
  rewrite Hrun. apply new_events_app in Htrace. rewrite Htrace.
  split; [reflexivity|]. split; [|split; [reflexivity|split; [|exact Hgone]]].
  - destruct status; cbn; split; try done; eauto.
    intros [e He]. discriminate.
  - rewrite List.filter_app, waiting_rounds_no_release. reflexivity.
Qed.

Lemma releases_follow_polls_round handle answer milliseconds evs :
  releases_follow_polls evs →
  releases_follow_polls
    (EvPollHandle handle answer :: EvSleep milliseconds :: evs).
Proof.
  intros Hevs i h r Hi. destruct i as [|[|i]]; [discriminate..|].
  cbn in Hi. destruct (Hevs i h r Hi) as (j & Hlt & Hj).
  exists (S (S j)). split; [lia|exact Hj].
Qed.

(** The release after a poll that answered true finds the handle
    resolved or gone. *)
Lemma release_step_guarded handle status batch (w : World) :
  HandleManager.wf (handle_manager w) →
  HandleManager.results (handle_manager w) !! handle = Some (Some status) →
  ∃ evs outcome w',
    match (status' ← handle_manager_ReleaseHandle handle; ThrowIfError status')
            (interleave batch (record (EvPollHandle handle (Ok true)) w)) with
    | (Ok _, w3) => (Returned, w3)
    | (Throw e, w3) => (Raised e, w3)
    end = (outcome, w') ∧
    trace w' = trace w ++ evs ∧
    releases_follow_polls evs ∧
    (∀ h answer, EvReleaseHandle h answer ∈ evs →
                 answer ≠ Throw (ReleasePending h)) ∧
    (∀ h, outcome ≠ Raised (ReleasePending h)).
Proof.
  intros Hwf Hcell.
  assert (Hsettled : HandleManager.settled handle
            (foldl env_step (handle_manager w) batch)).
  { apply interleave_settled. split; [eapply Hwf; eauto|].
    rewrite Hcell. discriminate. }
  destruct (HandleManager.results
              (foldl env_step (handle_manager w) batch) !! handle)
    as [[status'|]|] eqn:Hcell'.
  - destruct (release_after_poll handle status' batch w Hcell')
      as (w' & Hrun & Htrace & _).
    rewrite Hrun.
    exists [EvPollHandle handle (Ok true); EvReleaseHandle handle (Ok status')].
    exists (match status' with
            | OK => Returned
            | Failure detail => Raised (StatusError detail)
            end), w'.
    split; [by destruct status'|]. split; [exact Htrace|].
    split; [|split].
    + intros i h r Hi. destruct i as [|[|i]]; [discriminate| |discriminate].
      injection Hi as <- <-. exists 0%nat. split; [lia|reflexivity].
    + intros h r Hin. apply elem_of_cons in Hin as [Hin|Hin]; [discriminate|].
      apply list_elem_of_singleton in Hin. injection Hin as -> ->. discriminate.
    + intros h. destruct status'; discriminate.
  - exfalso. destruct Hsettled as [_ Hne]. by apply Hne.
  - run_monad. rewrite release_unknown by (destruct w; exact Hcell').
    exists [EvPollHandle handle (Ok true);
            EvReleaseHandle handle (Throw (UnknownHandle handle))].
    eexists _, _. split; [reflexivity|].
    split; [destruct w; unfold_world; by rewrite <- app_assoc|].
    split; [|split].
    + intros i h r Hi. destruct i as [|[|i]]; [discriminate| |discriminate].
      injection Hi as <- <-. exists 0%nat. split; [lia|reflexivity].
    + intros h r Hin. apply elem_of_cons in Hin as [Hin|Hin]; [discriminate|].
      apply list_elem_of_singleton in Hin. injection Hin as -> ->. discriminate.
    + discriminate.
Qed.

Lemma single_poll_guarded handle (answer : Result bool) :
  releases_follow_polls [EvPollHandle handle answer] ∧
  (∀ h r, EvReleaseHandle h r ∈ [EvPollHandle handle answer] →
          r ≠ Throw (ReleasePending h)).
Proof.
  split.
  - intros i h r Hi. destruct i as [|i]; discriminate.
  - intros h r Hin. apply list_elem_of_singleton in Hin. discriminate.
Qed.

Lemma WaitAndClear_guarded handle fuel :
  ∀ schedule (w : World),
  HandleManager.wf (handle_manager w) →
  ∃ evs,
    trace (snd (WaitAndClear fuel schedule handle w)) = trace w ++ evs ∧
    releases_follow_polls evs ∧
    (∀ h answer, EvReleaseHandle h answer ∈ evs →
                 answer ≠ Throw (ReleasePending h)) ∧
    (∀ h, fst (WaitAndClear fuel schedule handle w) ≠ Raised (ReleasePending h)).
Proof.
  induction fuel as [|fuel IH]; intros schedule w Hwf;
    rewrite WaitAndClear_eq;
    destruct (HandleManager.results (handle_manager w) !! handle)
      as [[status|]|] eqn:Hcell.
  1, 4: rewrite (poll_resolved handle status) by exact Hcell; cbv zeta;
    destruct (release_step_guarded handle status (hd [] schedule) w Hwf Hcell)
      as (evs & outcome & w' & Hrun & Htrace & Hfollow & Hanswer & Hout);
    rewrite Hrun; exists evs; auto.
  - rewrite poll_pending by exact Hcell.
    exists [EvPollHandle handle (Ok false)].
    split; [reflexivity|]. split; [|split]; [apply single_poll_guarded..|].
    discriminate.
  - rewrite poll_unknown by exact Hcell.
    exists [EvPollHandle handle (Throw (UnknownHandle handle))].
    split; [reflexivity|]. split; [|split]; [apply single_poll_guarded..|].
    discriminate.
  - rewrite poll_pending by exact Hcell.
    set (w3 := snd (sleep_for 1
                 (interleave (hd [] schedule)
                    (record (EvPollHandle handle (Ok false)) w)))).
    assert (Hm : handle_manager w3 =
                 foldl env_step (handle_manager w) (hd [] schedule))
      by (destruct w; reflexivity).
    assert (Htr : trace w3 = trace w ++ [EvPollHandle handle (Ok false); EvSleep 1])
      by (destruct w; subst w3; unfold_world; by rewrite <- app_assoc).
    destruct (IH (tl schedule) w3) as (evs & Htrace & Hfollow & Hanswer & Hout).
    { rewrite Hm. by apply interleave_wf. }
    exists (EvPollHandle handle (Ok false) :: EvSleep 1 :: evs).
    split; [rewrite Htrace, Htr, <- app_assoc; reflexivity|].
    split; [by apply releases_follow_polls_round|]. split; [|exact Hout].
    intros h r Hin.
    apply elem_of_cons in Hin as [Hin|Hin]; [discriminate|].
    apply elem_of_cons in Hin as [Hin|Hin]; [discriminate|]. eauto.
  - rewrite poll_unknown by exact Hcell.
    exists [EvPollHandle handle (Throw (UnknownHandle handle))].
    split; [reflexivity|]. split; [|split]; [apply single_poll_guarded..|].
    discriminate.
Qed.

(** C10: started on a registry whose handles all came from the counter,
    WaitAndClear, however long it runs and whatever other threads do to
    the registry, releases a handle only after a poll of that handle has
    answered true; no release of it finds the handle pending and the call
    never raises the release-on-pending error. *)
Theorem WaitAndClear_releases_only_resolved fuel schedule handle (w : World) :
  HandleManager.wf (handle_manager w) →
  let '(outcome, w') := WaitAndClear fuel schedule handle w in
  releases_follow_polls (new_events w w') ∧
  (∀ h answer, EvReleaseHandle h answer ∈ new_events w w' →
               answer ≠ Throw (ReleasePending h)) ∧
  (∀ h, outcome ≠ Raised (ReleasePending h)).
Proof.
  intros Hwf.
  destruct (WaitAndClear_guarded handle fuel schedule w Hwf)
    as (evs & Htrace & Hfollow & Hanswer & Hout).
  destruct (WaitAndClear fuel schedule handle w) as [outcome w'].
  cbn [fst snd] in *. apply new_events_app in Htrace. rewrite Htrace.
  auto.
Qed.

End Waiter.

(** ** The tensor identity *)

Lemma GetOpName_named prefix name handle :
  name ≠ "" → GetOpName prefix name handle = prefix +:+ "." +:+ name.
Proof. intros Hne. unfold GetOpName. by destruct name. Qed.

Lemma GetOpName_unnamed prefix handle :
  GetOpName prefix "" handle = prefix +:+ ".noname." +:+ to_string handle.
Proof. reflexivity. Qed.

(** A label without a NUL character reaches [GetOpName] whole. *)
Lemma c_str_without_nul (s : string) :
  Ascii.zero ∉ String.list_ascii_of_string s → c_str s = s.
Proof.
  induction s as [|c r IH]; [done|].
  cbn [String.list_ascii_of_string c_str]. intros Hnul.
  apply not_elem_of_cons in Hnul as [Hc Hr].
  destruct (Ascii.eqb c Ascii.zero) eqn:Heq.
  - apply Ascii.eqb_eq in Heq. congruence.
  - by rewrite IH.
Qed.

(** ** Runs on the small engine *)

(** C2: the call with an empty label that is given handle 7 submits its
    tensor under the identity byteps.noname.0, while GetOpName at handle 7
    yields byteps.noname.7: line 63 passes the literal 0 where the handle
    was meant. *)
Theorem unnamed_identity_ignores_handle :
  let '(r, w') := DoPushPull Sim.grad Sim.out 0 "" 0 0 (Sim.world Sim.ready 6) in
  r = Ok 7 ∧
  GetOpName "byteps" "" 7 = "byteps.noname.7" ∧
  last (trace w') =
    Some (EvEnqueueTensor {| tensor_ := Sim.grad |} {| tensor_ := Sim.out |}
            "byteps.noname.0" (-1) 0 0
            {| cb_handle := 7; cb_average := 0; cb_tensor := Sim.grad |}
            [REDUCE; COPYD2H; PUSH; PULL; COPYH2D; BROADCAST] OK) ∧
  Sim.sim_registered (engine w') = [("byteps.noname.0", BYTEPS_INT32, 4096)].
Proof. vm_compute. repeat split. Qed.

(** C1: a call with the average flag set, an input tensor holding [8; 20]
    and a separate output tensor holding [40; 100], on four workers: the
    continuation the call submits, run with the engine's status, divides the
    input tensor to [2; 5], leaves the output tensor at [40; 100] and
    resolves handle 1 with that status. *)
Theorem continuation_divides_input_tensor :
  let w := Sim.world Sim.ready 0 in
  let callback := {| cb_handle := 1; cb_average := 1; cb_tensor := Sim.grad |} in
  let '(r, w1) := DoPushPull Sim.grad Sim.out 1 "grad1" 0 0 w in
  let '(r2, w2) := run_callback callback OK w1 in
  r = Ok 1 ∧
  Sim.sim_queue (engine w1) =
    [("byteps.grad1", callback,
      [REDUCE; COPYD2H; PUSH; PULL; COPYH2D; BROADCAST])] ∧
  r2 = Ok tt ∧
  elements_of Sim.out (heap w1) = [40; 100] ∧
  elements_of Sim.out (heap w2) = [40; 100] ∧
  elements_of Sim.grad (heap w1) = [8; 20] ∧
  elements_of Sim.grad (heap w2) = [2; 5] ∧
  new_events w1 w2 = [EvDiv Sim.grad 4; EvMarkDone 1 OK] ∧
  HandleManager.results (handle_manager w2) !! 1 = Some (Some OK).
Proof. vm_compute. repeat split. Qed.

(** Counterexample to C3: the engine rejects the submission, the call throws
    the rejection, and the registry is not what it was: handle 1 stays in it,
    pending, with no continuation held by the engine to resolve it. *)
Lemma submission_failure_leaves_pending_handle :
  let w := Sim.world Sim.rejecting 0 in
  let '(r, w') := DoPushPull Sim.grad Sim.out 1 "grad1" 0 0 w in
  r = Throw (StatusError "queue closed") ∧
  HandleManager.results (handle_manager w) !! 1 = None ∧
  HandleManager.results (handle_manager w') !! 1 = Some None ∧
  HandleManager.results (handle_manager w') ≠ HandleManager.results (handle_manager w) ∧
  Sim.sim_queue (engine w') = [].
Proof.
  vm_compute. repeat split; try done.
Qed.

(** ** The theorems at work on the small engine *)

Lemma DoPushPull_submission_failure_witness :
  let w := Sim.world Sim.rejecting 0 in
  let callback := {| cb_handle := 1; cb_average := 1; cb_tensor := Sim.grad |} in
  let plan := [REDUCE; COPYD2H; PUSH; PULL; COPYH2D; BROADCAST] in
  last (trace (snd (DoPushPull Sim.grad Sim.out 1 "grad1" 0 0 w))) =
    Some (EvEnqueueTensor {| tensor_ := Sim.grad |} {| tensor_ := Sim.out |}
            "byteps.grad1" (-1) 0 0 callback plan (Failure "queue closed")) ∧
  let '(r, w') := DoPushPull Sim.grad Sim.out 1 "grad1" 0 0 w in
  let handle := HandleManager.last_handle (handle_manager w) + 1 in
  r = Throw (StatusError "queue closed") ∧
  cb_handle callback = handle ∧
  HandleManager.results (handle_manager w') =
    <[handle := None]> (HandleManager.results (handle_manager w)) ∧
  HandleManager.results (handle_manager w') !! handle = Some None.
Proof.
  intros w callback plan.
  assert (Hlast :
    last (trace (snd (DoPushPull Sim.grad Sim.out 1 "grad1" 0 0 w))) =
    Some (EvEnqueueTensor {| tensor_ := Sim.grad |} {| tensor_ := Sim.out |}
            "byteps.grad1" (-1) 0 0 callback plan (Failure "queue closed")))
    by (vm_compute; reflexivity).
  split; [exact Hlast|].
  exact (DoPushPull_submission_failure Sim.grad Sim.out 1 "grad1" 0 0 w
           _ _ _ _ _ _ _ _ _ Hlast).
Defined.

Lemma DoPushPull_stage_plan_witness :
  let w := Sim.world Sim.ready 0 in
  CheckInitialized (engine w) = OK ∧
  let w' := snd (DoPushPull Sim.grad Sim.out 1 "grad1" 0 0 w) in
  ∃ e context before tensor_name device callback answer plan,
    new_events w w' =
      before ++ [EvEnqueueTensor {| tensor_ := Sim.grad |} {| tensor_ := Sim.out |}
                   tensor_name device 0 0 callback plan answer] ∧
    EnqueueTensor context {| tensor_ := Sim.grad |} {| tensor_ := Sim.out |}
      (RecordReadyEvent device) tensor_name device 0 0 callback
      plan e = (answer, engine w') ∧
    plan = build_queue_list (IsRoot e) (IsDistributedJob e) ∧
    plan = match IsRoot e, IsDistributedJob e with
           | true, false => [REDUCE; BROADCAST]
           | true, true => [REDUCE; COPYD2H; PUSH; PULL; COPYH2D; BROADCAST]
           | false, _ =>
               [COORDINATE_REDUCE; REDUCE; COORDINATE_BROADCAST; BROADCAST]
           end.
Proof.
  intros w. split; [reflexivity|].
  apply (DoPushPull_stage_plan Sim.grad Sim.out 1 "grad1" 0 0 w). reflexivity.
Defined.

Lemma DoPushPull_uninitialized_engine_witness :
  let w := Sim.world Sim.stopped 0 in
  let detail := "BytePS has not been initialized" in
  CheckInitialized (engine w) = Failure detail ∧
  let '(r, w') := DoPushPull Sim.grad Sim.out 1 "grad1" 0 0 w in
  r = Throw (StatusError detail) ∧
  handle_manager w' = handle_manager w ∧
  new_events w w' = [EvCheckInitialized (Failure detail)] ∧
  (∀ handle, EvAllocateHandle handle ∉ new_events w w') ∧
  engine w' = engine w ∧ heap w' = heap w.
Proof.
  intros w detail. split; [reflexivity|].
  apply (DoPushPull_uninitialized_engine Sim.grad Sim.out 1 "grad1" 0 0 w detail).
  reflexivity.
Defined.

Lemma registration_before_submission_witness :
  let w := Sim.world Sim.ready 0 in
  CheckInitialized (engine w) = OK ∧
  let tensor_name := GetOpName "byteps" (c_str "grad1") 0 in
  let known := fst (IsTensorInitialized tensor_name (nbytes Sim.grad) (engine w)) in
  let evs := new_events w (snd (DoPushPull Sim.grad Sim.out 1 "grad1" 0 0 w)) in
  ((∃ dtype cpubuff, EvInitTensor tensor_name dtype cpubuff ∈ evs) ↔
   known = false) ∧
  (∀ n dtype cpubuff, EvInitTensor n dtype cpubuff ∈ evs → n = tensor_name) ∧
  length (List.filter is_InitTensor evs) = (if known then 0 else 1)%nat ∧
  (∃ before device callback plan answer,
     evs = before ++
           [EvEnqueueTensor {| tensor_ := Sim.grad |} {| tensor_ := Sim.out |}
              tensor_name device 0 0 callback plan answer] ∧
     List.filter is_EnqueueTensor before = []) ∧
  (∀ i j a b,
     evs !! i = Some a → evs !! j = Some b →
     is_InitTensor a = true → is_EnqueueTensor b = true → (i < j)%nat).
Proof.
  intros w. split; [reflexivity|].
  apply (registration_before_submission Sim.grad Sim.out 1 "grad1" 0 0 w).
  reflexivity.
Defined.

Lemma registration_host_pointer_witness :
  let w := Sim.world Sim.ready 0 in
  let tensor := Sim.cuda_grad in
  CheckInitialized (engine w) = OK ∧
  (is_cuda (device tensor) = true → index (device tensor) ≠ CPU_DEVICE_ID) ∧
  let tensor_name := GetOpName "byteps" (c_str "grad1") 0 in
  fst (IsTensorInitialized tensor_name (nbytes tensor) (engine w)) = false ∧
  let evs := new_events w (snd (DoPushPull tensor Sim.out 1 "grad1" 0 0 w)) in
  ∃ cpubuff,
    List.filter is_InitTensor evs =
      [EvInitTensor tensor_name (scalar_type tensor) cpubuff] ∧
    (GetDeviceID tensor = CPU_DEVICE_ID ↔ is_cuda (device tensor) = false) ∧
    (is_cuda (device tensor) = false → cpubuff = data_ptr tensor) ∧
    (is_cuda (device tensor) = true → cpubuff = nullptr) ∧
    (data_ptr tensor ≠ nullptr →
     (cpubuff = data_ptr tensor ↔ is_cuda (device tensor) = false)).
Proof.
  intros w tensor.
  assert (Hindex : is_cuda (device tensor) = true →
                   index (device tensor) ≠ CPU_DEVICE_ID)
    by (intros _; vm_compute; discriminate).
  split; [reflexivity|]. split; [exact Hindex|]. split; [reflexivity|].
  apply (registration_host_pointer tensor Sim.out 1 "grad1" 0 0 w);
    [reflexivity | exact Hindex | reflexivity].
Defined.

Lemma WaitAndClear_waits_then_releases_witness :
  let w := Sim.waiting in
  let schedule := [[]; [EnvMarkDone 1 (Failure "connection reset")]; []] in
  let status := Failure "connection reset" in
  (∀ i, (i < 2)%nat →
     HandleManager.results (registry_after i schedule (handle_manager w)) !! 1 =
       Some None) ∧
  (∃ status0,
     HandleManager.results (registry_after 2 schedule (handle_manager w)) !! 1 =
       Some (Some status0)) ∧
  HandleManager.results (registry_after 3 schedule (handle_manager w)) !! 1 =
    Some (Some status) ∧
  (5 < 2 → fst (WaitAndClear 5 schedule 1 w) = StillWaiting)%nat ∧
  let '(outcome, w') := WaitAndClear 5 schedule 1 w in
  outcome = Raised (StatusError "connection reset") ∧
  ((∃ e, outcome = Raised e) ↔ ok status = false) ∧
  new_events w w' =
    waiting_rounds 2 1 ++
    [EvPollHandle 1 (Ok true); EvReleaseHandle 1 (Ok status)] ∧
  length (List.filter is_ReleaseHandle (new_events w w')) = 1%nat ∧
  HandleManager.results (handle_manager w') !! 1 = None.
Proof.
  intros w schedule status.
  assert (Hpending : ∀ i, (i < 2)%nat →
     HandleManager.results (registry_after i schedule (handle_manager w)) !! 1 =
       Some None).
  { intros i Hi. destruct i as [|[|i]]; [reflexivity|reflexivity|lia]. }
  assert (Hdone : ∃ status0,
     HandleManager.results (registry_after 2 schedule (handle_manager w)) !! 1 =
       Some (Some status0)).
  { exists status. reflexivity. }
  assert (Hkept :
     HandleManager.results (registry_after 3 schedule (handle_manager w)) !! 1 =
       Some (Some status)).
  { reflexivity. }
  split; [exact Hpending|]. split; [exact Hdone|]. split; [exact Hkept|].
  destruct (WaitAndClear_waits_then_releases 1 status 2 schedule w 5
              Hpending Hdone Hkept) as [Hwait Hret].
  split; [exact Hwait|]. apply Hret. lia.
Defined.

Lemma WaitAndClear_releases_only_resolved_witness :
  let w := Sim.waiting in
  let schedule := [[EnvMarkDone 1 OK]; [EnvReleaseHandle 1]] in
  HandleManager.wf (handle_manager w) ∧
  let '(outcome, w') := WaitAndClear 4 schedule 1 w in
  releases_follow_polls (new_events w w') ∧
  (∀ h answer, EvReleaseHandle h answer ∈ new_events w w' →
               answer ≠ Throw (ReleasePending h)) ∧
  (∀ h, outcome ≠ Raised (ReleasePending h)).
Proof.
  intros w schedule.
  assert (Hwf : HandleManager.wf (handle_manager w)).
  { apply (env_step_wf HandleManager.init EnvAllocateHandle), wf_init. }
  split; [exact Hwf|].
  apply (WaitAndClear_releases_only_resolved 4 schedule 1 w Hwf).
Defined.

(** The race the waiter leaves open: another thread releases the handle
    between the poll that answered true and the release. *)
Example WaitAndClear_released_by_another_thread :
  let '(outcome, w') :=
    WaitAndClear 4 [[EnvMarkDone 1 OK]; [EnvReleaseHandle 1]] 1 Sim.waiting in
  outcome = Raised (UnknownHandle 1) ∧
  trace w' = [EvPollHandle 1 (Ok false); EvSleep 1; EvPollHandle 1 (Ok true);
              EvReleaseHandle 1 (Throw (UnknownHandle 1))].
Proof. vm_compute. split; reflexivity. Qed.


(** ** Further properties of the tensor identity *)

Lemma to_int_not_nil (n : Z) :
  Z.to_int n ≠ Decimal.Pos Decimal.Nil ∧ Z.to_int n ≠ Decimal.Neg Decimal.Nil.
Proof.
  destruct n as [|p|p]; cbn; split; try discriminate;
    intros [= Hp]; by apply (Unsigned.to_uint_nonnil p).
Qed.

(** X1: the names GetOpName makes for unlabeled operations tell the handles
    apart: two handles with the same name are the same handle. *)
Theorem GetOpName_unnamed_inj prefix (handle1 handle2 : Z) :
  GetOpName prefix "" handle1 = GetOpName prefix "" handle2 →
  handle1 = handle2.
Proof.
  rewrite !GetOpName_unnamed. intros Heq.
  apply (inj (String.app prefix)), (inj (String.app ".noname.")) in Heq.
  unfold to_string in Heq.
  assert (Hparse : NilZero.int_of_string (NilZero.string_of_int (Z.to_int handle1)) =
                   NilZero.int_of_string (NilZero.string_of_int (Z.to_int handle2)))
    by (by rewrite Heq).
  destruct (to_int_not_nil handle1) as [Hp1 Hn1].
  destruct (to_int_not_nil handle2) as [Hp2 Hn2].
  rewrite !NilZero.isi in Hparse by assumption.
  injection Hparse as Hint. by apply to_int_inj.
Qed.

(** X2: for labeled operations the name ignores the handle and tells the
    labels apart. *)
Theorem GetOpName_named_inj prefix (name1 name2 : string) (handle1 handle2 : Z) :
  name1 ≠ "" → name2 ≠ "" →
  (GetOpName prefix name1 handle1 = GetOpName prefix name1 handle2) ∧
  (GetOpName prefix name1 handle1 = GetOpName prefix name2 handle2 →
   name1 = name2).
Proof.
  intros Hne1 Hne2. rewrite !GetOpName_named by done. split; [done|].
  intros Heq. by apply (inj (String.app prefix)), (inj (String.app ".")) in Heq.
Qed.

(** X3: a label of the form noname.<n> gets the name of the unlabeled
    operation with handle n, so labeled and unlabeled names can collide. *)
Theorem GetOpName_label_collides_with_unnamed prefix (n handle : Z) :
  GetOpName prefix ("noname." +:+ to_string n) handle = GetOpName prefix "" n.
Proof. reflexivity. Qed.

(** X4: what reaches GetOpName of a label read through c_str: the part of
    the label before its first NUL character. It holds no NUL, reading it
    again changes nothing, the label starts with it, and it is empty exactly
    when the label is empty or starts with NUL. *)
Theorem c_str_cuts_at_nul (s : string) :
  (Ascii.zero ∉ String.list_ascii_of_string (c_str s)) ∧
  c_str (c_str s) = c_str s ∧
  String.prefix (c_str s) s = true ∧
  (c_str s = "" ↔ s = "" ∨ ∃ rest, s = String Ascii.zero rest).
Proof.
  induction s as [|c r (Hnul & Hidem & Hpre & Hempty)].
  - repeat split; try done.
    + cbn. apply not_elem_of_nil.
    + auto.
  - cbn [c_str]. destruct (Ascii.eqb c Ascii.zero) eqn:Hc.
    + apply Ascii.eqb_eq in Hc as ->. repeat split; try done.
      * cbn. apply not_elem_of_nil.
      * intros _. right. eauto.
    + assert (Hne : c ≠ Ascii.zero) by (by apply Ascii.eqb_neq).
      split; [|split; [|split; [|split]]].
      * cbn. apply not_elem_of_cons. split; [congruence|exact Hnul].
      * cbn [c_str]. by rewrite Hc, Hidem.
      * cbn. destruct (Ascii.ascii_dec c c); [exact Hpre|done].
      * discriminate.
      * intros [Hs|[rest Hs]]; [discriminate|]. congruence.
Qed.

(** ** Further properties of the dispatcher *)

Section MoreRuns.

Context {E : Type} `{Engine E} {Elem : Type} `{TensorLib Elem}.

Local Abbreviation World := (World E Elem).

(** What every call does to the registry and to the tensors. *)
Lemma DoPushPull_state tensor output average name version priority (w : World) :
  let w' := snd (DoPushPull tensor output average name version priority w) in
  heap w' = heap w ∧
  handle_manager w' =
    (if ok (CheckInitialized (engine w))
     then snd (HandleManager.AllocateHandle (handle_manager w))
     else handle_manager w).
Proof.
  destruct (CheckInitialized (engine w)) as [|detail] eqn:Hinit; cbv zeta.
  - destruct (DoPushPull_initialized tensor output average name version priority
                w Hinit)
      as (known & e1 & e2 & context & e3 & answer & e4 & _ & _ & _ & _ & Hrun).
    rewrite Hrun. split; reflexivity.
  - rewrite (DoPushPull_stops_uninitialized _ _ _ _ _ _ _ _ Hinit).
    split; reflexivity.
Qed.

(** A call that returns a handle ran on an initialized engine and returns
    the successor of the counter. *)
Lemma DoPushPull_returns tensor output average name version priority
    (w w' : World) handle :
  DoPushPull tensor output average name version priority w = (Ok handle, w') →
  CheckInitialized (engine w) = OK ∧
  handle = HandleManager.last_handle (handle_manager w) + 1 ∧
  handle_manager w' = snd (HandleManager.AllocateHandle (handle_manager w)) ∧
  heap w' = heap w.
Proof.
  intros Hrun. destruct (CheckInitialized (engine w)) as [|detail] eqn:Hinit.
  - destruct (DoPushPull_initialized tensor output average name version priority
                w Hinit)
      as (known & e1 & e2 & context & e3 & answer & e4 & _ & _ & _ & _ & Hrun').
    rewrite Hrun' in Hrun. destruct answer; [|discriminate].
    injection Hrun as <- <-. repeat split.
  - rewrite (DoPushPull_stops_uninitialized _ _ _ _ _ _ _ _ Hinit) in Hrun.
    discriminate.
Qed.

(** X5: on an initialized engine, every identity DoPushPull hands to the
    engine, in asking, registering and submitting, is byteps.<label> with
    the label read up to its first NUL character, or byteps.noname.0 when
    nothing is left of the label; the handle, the tensors, the version and
    the priority play no part in it. *)
Theorem DoPushPull_identity_of_label tensor output average name version priority
    (w : World) :
  CheckInitialized (engine w) = OK →
  let identity :=
    if empty (c_str name) then "byteps.noname.0" else "byteps." +:+ c_str name in
  let evs :=
    new_events w (snd (DoPushPull tensor output average name version priority w)) in
  (∀ ev n, ev ∈ evs → event_name ev = Some n → n = identity) ∧
  ∃ before device callback plan answer,
    evs = before ++
          [EvEnqueueTensor {| tensor_ := tensor |} {| tensor_ := output |}
             identity device priority version callback plan answer].
Proof.
  intros Hinit identity evs.
  destruct (DoPushPull_initialized tensor output average name version priority
              w Hinit)
    as (known & e1 & e2 & context & e3 & answer & e4 & _ & _ & _ & _ & Hrun).
  assert (Hid : GetOpName "byteps" (c_str name) 0 = identity)
    by (subst identity; unfold GetOpName; by destruct (c_str name)).
  rewrite Hid in Hrun.
  assert (Hevs : evs = _) by (subst evs; rewrite Hrun; by apply new_events_app).
  clearbody evs identity. subst evs. clear Hrun Hid. split.
  - intros ev n Hin Hname.
    destruct known; cbn [registration_events app] in Hin;
      repeat (apply elem_of_cons in Hin as [->|Hin];
              [cbn in Hname; congruence|]);
      by apply elem_of_nil in Hin.
  - destruct known; cbn [registration_events app].
    + eexists [_; _; _; _], _, _, _, _. reflexivity.
    + eexists [_; _; _; _; _; _], _, _, _, _. reflexivity.
Qed.

(** X6: no call of DoPushPull changes an element of a tensor, whether it
    throws or returns; the division is left to the continuation. *)
Theorem DoPushPull_leaves_tensors tensor output average name version priority
    (w : World) (t : Tensor) :
  elements_of t (heap (snd (DoPushPull tensor output average name version
                              priority w))) =
    elements_of t (heap w).
Proof.
  destruct (DoPushPull_state tensor output average name version priority w)
    as [Hheap _].
  by rewrite Hheap.
Qed.

(** X7: on an initialized engine and a registry whose handles all came from
    the counter, DoPushPull takes the successor of the counter as handle:
    that handle was not in the registry, is pending afterwards, no other
    entry changes, the continuation submitted captures that handle, the
    flag and the input tensor, and a returned handle is that one; this also
    holds when the submission is rejected. *)
Theorem DoPushPull_handle_fresh_and_pending tensor output average name version
    priority (w : World) :
  CheckInitialized (engine w) = OK →
  HandleManager.wf (handle_manager w) →
  let '(r, w') := DoPushPull tensor output average name version priority w in
  let handle := HandleManager.last_handle (handle_manager w) + 1 in
  HandleManager.results (handle_manager w) !! handle = None ∧
  HandleManager.results (handle_manager w') !! handle = Some None ∧
  (∀ h, h ≠ handle →
        HandleManager.results (handle_manager w') !! h =
        HandleManager.results (handle_manager w) !! h) ∧
  HandleManager.last_handle (handle_manager w') = handle ∧
  (∀ h, r = Ok h → h = handle) ∧
  (∀ input output' n device p v callback plan answer,
     EvEnqueueTensor input output' n device p v callback plan answer
       ∈ new_events w w' →
     callback =
       {| cb_handle := handle; cb_average := average; cb_tensor := tensor |}).
Proof.
  intros Hinit Hwf.
  destruct (DoPushPull_initialized tensor output average name version priority
              w Hinit)
    as (known & e1 & e2 & context & e3 & answer & e4 & _ & _ & _ & _ & Hrun).
  rewrite Hrun. cbv zeta.
  erewrite new_events_app by reflexivity.
  cbn [handle_manager HandleManager.AllocateHandle snd HandleManager.results
       HandleManager.last_handle].
  split; [|split; [|split; [|split; [|split]]]].
  - destruct (HandleManager.results (handle_manager w)
                !! (HandleManager.last_handle (handle_manager w) + 1))
      as [cell|] eqn:Hcell; [|done].
    apply Hwf in Hcell. lia.
  - apply lookup_insert_eq.
  - intros h Hne. by rewrite lookup_insert_ne.
  - reflexivity.
  - intros h Hr. destruct answer; [|discriminate]. by injection Hr as <-.
  - intros input output' n device p v callback plan answer' Hin.
    destruct known; cbn [registration_events app] in Hin;
      repeat (apply elem_of_cons in Hin as [Hin|Hin];
              [first [discriminate | by injection Hin]|]);
      by apply elem_of_nil in Hin.
Qed.

(** X8: two calls of DoPushPull that return handles, one after the other,
    return consecutive and so different handles, and both are pending after
    the second call. *)
Theorem DoPushPull_successive_handles
    tensor1 output1 average1 name1 version1 priority1
    tensor2 output2 average2 name2 version2 priority2
    (w w1 w2 : World) handle1 handle2 :
  DoPushPull tensor1 output1 average1 name1 version1 priority1 w =
    (Ok handle1, w1) →
  DoPushPull tensor2 output2 average2 name2 version2 priority2 w1 =
    (Ok handle2, w2) →
  handle2 = handle1 + 1 ∧ handle1 ≠ handle2 ∧
  HandleManager.results (handle_manager w2) !! handle1 = Some None ∧
  HandleManager.results (handle_manager w2) !! handle2 = Some None.
Proof.
  intros Hrun1 Hrun2.
  apply DoPushPull_returns in Hrun1 as (_ & Hh1 & Hm1 & _).
  apply DoPushPull_returns in Hrun2 as (_ & Hh2 & Hm2 & _).
  rewrite Hm1 in Hh2, Hm2. cbn in Hh2, Hm2. rewrite <- Hh1 in Hh2, Hm2.
  rewrite Hm2. cbn. subst handle2.
  split; [reflexivity|]. split; [lia|]. split.
  - rewrite lookup_insert_ne by lia. apply lookup_insert_eq.
  - apply lookup_insert_eq.
Qed.

End MoreRuns.

(** ** Further properties of the continuation and the waiter *)

Section MoreWaiting.

Context {E : Type} `{Engine E} {Elem : Type} `{TensorLib Elem}.

Local Abbreviation World := (World E Elem).

(** The registry after the continuation is the registry after MarkDone. *)
Lemma run_callback_registry callback status (w : World) :
  handle_manager (snd (run_callback callback status w)) =
    env_step (handle_manager w) (EnvMarkDone (cb_handle callback) status) ∧
  engine (snd (run_callback callback status w)) = engine w.
Proof.
  destruct (decide (cb_average callback = 0)) as [Hzero|Hset].
  - rewrite run_callback_plain by done. split; reflexivity.
  - rewrite run_callback_average by done. split; reflexivity.
Qed.

Lemma MarkDone_other_handles handle status (m : HandleManager.t) :
  HandleManager.last_handle (snd (HandleManager.MarkDone handle status m)) =
    HandleManager.last_handle m ∧
  ∀ h, h ≠ handle →
       HandleManager.results (snd (HandleManager.MarkDone handle status m)) !! h =
       HandleManager.results m !! h.
Proof.
  unfold HandleManager.MarkDone.
  destruct (HandleManager.results m !! handle) as [[s|]|]; cbn; split; try done.
  intros h Hne. by rewrite lookup_insert_ne.
Qed.

(** X9: the continuation, whatever its flag and whether or not resolving
    succeeds, leaves the engine, the handle counter, every other handle and
    every tensor of another storage as they were; with the flag clear it
    changes no tensor, with the flag set it has divided its tensor by the
    worker count even when MarkDone fails, the division coming first. *)
Theorem run_callback_footprint callback status (w : World) :
  let '(r, w') := run_callback callback status w in
  engine w' = engine w ∧
  HandleManager.last_handle (handle_manager w') =
    HandleManager.last_handle (handle_manager w) ∧
  (∀ h, h ≠ cb_handle callback →
        HandleManager.results (handle_manager w') !! h =
        HandleManager.results (handle_manager w) !! h) ∧
  (∀ t, storage t ≠ storage (cb_tensor callback) →
        elements_of t (heap w') = elements_of t (heap w)) ∧
  heap w' =
    (if cb_average callback =? 0 then heap w
     else div_ (cb_tensor callback) (byteps_size (engine w)) (heap w)) ∧
  r = fst (HandleManager.MarkDone (cb_handle callback) status (handle_manager w)).
Proof.
  destruct (MarkDone_other_handles (cb_handle callback) status (handle_manager w))
    as [Hlast Hothers].
  destruct (decide (cb_average callback = 0)) as [Hzero|Hset].
  - rewrite run_callback_plain by done. cbn [handle_manager engine heap].
    rewrite Hzero. cbn [Z.eqb]. repeat split; auto.
  - rewrite run_callback_average by done. cbn [handle_manager engine heap].
    apply Z.eqb_neq in Hset as Hneq. rewrite Hneq. repeat split; auto.
    intros t Hne. by apply div_other_storage.
Qed.

(** X10: PollHandle of ops.cc answers 1 for a resolved handle, 0 for a
    pending one and throws for a handle the registry does not hold; it
    leaves the registry, the engine and the tensors as they are. *)
Theorem PollHandle_answers handle (w : World) :
  let '(r, w') := PollHandle handle w in
  handle_manager w' = handle_manager w ∧ engine w' = engine w ∧
  heap w' = heap w ∧
  r = match HandleManager.results (handle_manager w) !! handle with
      | Some (Some _) => Ok 1
      | Some None => Ok 0
      | None => Throw (UnknownHandle handle)
      end.
Proof.
  unfold PollHandle, handle_manager_PollHandle, HandleManager.PollHandle.
  run_monad.
  destruct (HandleManager.results (handle_manager w) !! handle) as [[s|]|];
    cbn; repeat split.
Qed.

(** A resolved handle and no other thread: one poll, one release. *)
Lemma WaitAndClear_resolved_now fuel handle status (w : World) :
  HandleManager.results (handle_manager w) !! handle = Some (Some status) →
  WaitAndClear fuel [] handle w =
    (match status with
     | OK => Returned
     | Failure detail => Raised (StatusError detail)
     end,
     MkWorld
       (HandleManager.Build (HandleManager.last_handle (handle_manager w))
          (delete handle (HandleManager.results (handle_manager w))))
       (engine w) (heap w)
       (trace w ++ [EvPollHandle handle (Ok true);
                    EvReleaseHandle handle (Ok status)])).
Proof.
  intros Hcell. rewrite WaitAndClear_eq, (poll_resolved handle status) by done.
  cbv zeta. cbn [hd]. run_monad.
  rewrite (release_resolved handle status) by (destruct w; exact Hcell).
  destruct w, status; cbn [ThrowIfError]; unfold throw, ret; same_world.
Qed.

(** X11: submit, complete, wait. After a call of DoPushPull that returned a
    handle, and the continuation run with the engine's status, WaitAndClear
    on that handle, with no other thread at the registry, returns at its
    first poll without sleeping, raises exactly a failed status, and leaves
    the registry entries as they were before the submission; the tensors are
    those the continuation left. *)
Theorem push_pull_then_wait tensor output average name version priority
    (w w1 : World) handle status fuel :
  HandleManager.wf (handle_manager w) →
  DoPushPull tensor output average name version priority w = (Ok handle, w1) →
  let callback :=
    {| cb_handle := handle; cb_average := average; cb_tensor := tensor |} in
  let '(r2, w2) := run_callback callback status w1 in
  let '(outcome, w3) := WaitAndClear fuel [] handle w2 in
  r2 = Ok tt ∧
  outcome = match status with
            | OK => Returned
            | Failure detail => Raised (StatusError detail)
            end ∧
  new_events w2 w3 =
    [EvPollHandle handle (Ok true); EvReleaseHandle handle (Ok status)] ∧
  HandleManager.results (handle_manager w3) =
    HandleManager.results (handle_manager w) ∧
  heap w3 =
    (if average =? 0 then heap w
     else div_ tensor (byteps_size (engine w1)) (heap w)).
Proof.
  intros Hwf Hrun callback.
  apply DoPushPull_returns in Hrun as (_ & Hhandle & Hm1 & Hheap1).
  assert (Hfresh : HandleManager.results (handle_manager w) !! handle = None).
  { destruct (HandleManager.results (handle_manager w) !! handle)
      as [cell|] eqn:Hcell; [|done].
    apply Hwf in Hcell. lia. }
  assert (Hpending : HandleManager.results (handle_manager w1) !! handle = Some None).
  { rewrite Hm1. cbn. rewrite <- Hhandle. apply lookup_insert_eq. }
  assert (Hdone : HandleManager.MarkDone handle status (handle_manager w1) =
            (Ok tt,
             HandleManager.Build (HandleManager.last_handle (handle_manager w1))
               (<[handle := Some status]> (HandleManager.results (handle_manager w1))))).
  { unfold HandleManager.MarkDone. by rewrite Hpending. }
  assert (Hresults :
    delete handle (<[handle := Some status]> (HandleManager.results (handle_manager w1)))
    = HandleManager.results (handle_manager w)).
  { rewrite Hm1. cbn. rewrite <- Hhandle.
    rewrite !delete_insert_eq. by apply delete_id. }
  destruct (decide (average = 0)) as [Hzero|Hset].
  - rewrite run_callback_plain by done. subst callback.
    cbn [cb_handle cb_average cb_tensor]. rewrite Hdone. cbn [fst snd].
    erewrite WaitAndClear_resolved_now by (cbn; apply lookup_insert_eq).
    erewrite new_events_app by reflexivity.
    cbn [handle_manager heap HandleManager.results].
    rewrite Hresults, Hheap1, Hzero. repeat split.
  - rewrite run_callback_average by done. subst callback.
    cbn [cb_handle cb_average cb_tensor]. rewrite Hdone. cbn [fst snd].
    erewrite WaitAndClear_resolved_now by (cbn; apply lookup_insert_eq).
    erewrite new_events_app by reflexivity.
    cbn [handle_manager heap HandleManager.results].
    apply Z.eqb_neq in Hset as Hneq.
    rewrite Hresults, Hheap1, Hneq. repeat split.
Qed.

(** X12: WaitAndClear on a handle the registry does not hold, for instance
    one already waited for, raises the unknown-handle error at its first
    poll: it does not sleep, does not release, and leaves the registry as it
    is, however long it may run and whatever other threads are scheduled. *)
Theorem WaitAndClear_unknown_handle fuel schedule handle (w : World) :
  HandleManager.results (handle_manager w) !! handle = None →
  let '(outcome, w') := WaitAndClear fuel schedule handle w in
  outcome = Raised (UnknownHandle handle) ∧
  new_events w w' = [EvPollHandle handle (Throw (UnknownHandle handle))] ∧
  handle_manager w' = handle_manager w.
Proof.
  intros Hcell. rewrite WaitAndClear_eq, poll_unknown by done.
  erewrite new_events_app by reflexivity. repeat split.
Qed.

(** X13: waiting twice. When a resolved handle has been waited for, with no
    other thread at the registry, a second WaitAndClear on it raises the
    unknown-handle error and changes nothing in the registry. *)
Theorem WaitAndClear_twice fuel fuel' handle status (w : World) :
  HandleManager.results (handle_manager w) !! handle = Some (Some status) →
  let '(outcome1, w1) := WaitAndClear fuel [] handle w in
  let '(outcome2, w2) := WaitAndClear fuel' [] handle w1 in
  outcome1 = match status with
             | OK => Returned
             | Failure detail => Raised (StatusError detail)
             end ∧
  outcome2 = Raised (UnknownHandle handle) ∧
  handle_manager w2 = handle_manager w1 ∧
  HandleManager.results (handle_manager w1) =
    delete handle (HandleManager.results (handle_manager w)).
Proof.
  intros Hcell. rewrite (WaitAndClear_resolved_now fuel handle status) by done.
  rewrite WaitAndClear_eq, poll_unknown by (cbn; apply lookup_delete_eq).
  repeat split.
Qed.

Lemma WaitAndClear_pending_run handle fuel :
  ∀ schedule (w : World),
  (∀ i, (i ≤ fuel)%nat →
     HandleManager.results (registry_after i schedule (handle_manager w))
       !! handle = Some None) →
  ∃ w',
    WaitAndClear fuel schedule handle w = (StillWaiting, w') ∧
    trace w' = trace w ++ waiting_rounds fuel handle ++
               [EvPollHandle handle (Ok false)] ∧
    handle_manager w' = registry_after fuel schedule (handle_manager w).
Proof.
  induction fuel as [|fuel IH]; intros schedule w Hpending;
    rewrite WaitAndClear_eq;
    rewrite poll_pending by (apply (Hpending 0%nat); lia).
  - eexists. split; [reflexivity|]. split; reflexivity.
  - set (w3 := snd (sleep_for 1
                 (interleave (hd [] schedule)
                    (record (EvPollHandle handle (Ok false)) w)))).
    assert (Hm : handle_manager w3 =
                 foldl env_step (handle_manager w) (hd [] schedule))
      by (destruct w; reflexivity).
    assert (Htr : trace w3 = trace w ++ [EvPollHandle handle (Ok false); EvSleep 1])
      by (destruct w; subst w3; unfold_world; by rewrite <- app_assoc).
    destruct (IH (tl schedule) w3) as (w' & Hrun & Htrace & Hm').
    { intros i Hi. rewrite Hm. apply (Hpending (S i)). lia. }
    exists w'. split; [exact Hrun|]. split.
    + rewrite Htrace, Htr, <- app_assoc. reflexivity.
    + rewrite Hm', Hm. reflexivity.
Qed.

(** X14: WaitAndClear has no timeout. While the handle stays pending the
    loop is still waiting after any number of rounds: it has polled once
    more than it has slept, has released nothing, and the registry is what
    the other threads made of it. *)
Theorem WaitAndClear_keeps_waiting fuel schedule handle (w : World) :
  (∀ i, (i ≤ fuel)%nat →
     HandleManager.results (registry_after i schedule (handle_manager w))
       !! handle = Some None) →
  let '(outcome, w') := WaitAndClear fuel schedule handle w in
  outcome = StillWaiting ∧
  new_events w w' =
    waiting_rounds fuel handle ++ [EvPollHandle handle (Ok false)] ∧
  List.filter is_ReleaseHandle (new_events w w') = [] ∧
  handle_manager w' = registry_after fuel schedule (handle_manager w).
Proof.
  intros Hpending.
  destruct (WaitAndClear_pending_run handle fuel schedule w Hpending)
    as (w' & Hrun & Htrace & Hm).
  rewrite Hrun. apply new_events_app in Htrace. rewrite Htrace.
  repeat split; [|exact Hm].
  rewrite List.filter_app, waiting_rounds_no_release. reflexivity.
Qed.

(** The registry after the release step is the registry after
    ReleaseHandle, whether the step returns or throws. *)
Lemma release_step_registry handle (w : World) :
  let w' := snd ((status ← handle_manager_ReleaseHandle handle;
                  ThrowIfError status) w) in
  handle_manager w' = env_step (handle_manager w) (EnvReleaseHandle handle) ∧
  engine w' = engine w ∧ heap w' = heap w.
Proof.
  run_monad. unfold handle_manager_ReleaseHandle. cbn [env_step].
  destruct (HandleManager.ReleaseHandle handle (handle_manager w))
    as [[[|detail]|e] m]; destruct w; repeat split.
Qed.

Lemma ReleaseHandle_other_handles handle (m : HandleManager.t) :
  HandleManager.last_handle (env_step m (EnvReleaseHandle handle)) =
    HandleManager.last_handle m ∧
  ∀ h, h ≠ handle →
       HandleManager.results (env_step m (EnvReleaseHandle handle)) !! h =
       HandleManager.results m !! h.
Proof.
  cbn [env_step]. unfold HandleManager.ReleaseHandle.
  destruct (HandleManager.results m !! handle) as [[s|]|]; cbn; split; try done.
  intros h Hne. by rewrite lookup_delete_ne.
Qed.

Lemma WaitAndClear_frame handle fuel :
  ∀ schedule (w : World),
  let w' := snd (WaitAndClear fuel schedule handle w) in
  engine w' = engine w ∧ heap w' = heap w ∧
  (HandleManager.wf (handle_manager w) → HandleManager.wf (handle_manager w')).
Proof.
  induction fuel as [|fuel IH]; intros schedule w; cbv zeta;
    rewrite WaitAndClear_eq; unfold handle_manager_PollHandle;
    destruct (HandleManager.PollHandle handle (handle_manager w))
      as [[|]|e]; cbv zeta.
  1, 4:
    destruct (release_step_registry handle
                (interleave (hd [] schedule)
                   (record (EvPollHandle handle (Ok true)) w)))
      as (Hm & He & Hh);
    destruct ((status ← handle_manager_ReleaseHandle handle; ThrowIfError status)
                (interleave (hd [] schedule)
                   (record (EvPollHandle handle (Ok true)) w)))
      as [[u|e] w3]; cbn [snd] in *;
    (split; [by rewrite He|]); (split; [by rewrite Hh|]);
    intros Hwf; rewrite Hm; by apply env_step_wf, interleave_wf.
  1, 2, 4: by repeat split.
  destruct (IH (tl schedule)
              (snd (sleep_for 1
                      (interleave (hd [] schedule)
                         (record (EvPollHandle handle (Ok false)) w)))))
    as (He & Hh & Hwf').
  split; [by rewrite He|]. split; [by rewrite Hh|].
  intros Hwf. apply Hwf'. by apply interleave_wf.
Qed.

Lemma WaitAndClear_alone_others handle fuel :
  ∀ (w : World),
  let w' := snd (WaitAndClear fuel [] handle w) in
  HandleManager.last_handle (handle_manager w') =
    HandleManager.last_handle (handle_manager w) ∧
  ∀ h, h ≠ handle →
       HandleManager.results (handle_manager w') !! h =
       HandleManager.results (handle_manager w) !! h.
Proof.
  induction fuel as [|fuel IH]; intros w; cbv zeta;
    rewrite WaitAndClear_eq; unfold handle_manager_PollHandle;
    destruct (HandleManager.PollHandle handle (handle_manager w))
      as [[|]|e]; cbv zeta; cbn [hd tl].
  1, 4:
    destruct (release_step_registry handle
                (interleave [] (record (EvPollHandle handle (Ok true)) w)))
      as (Hm & _ & _);
    destruct ((status ← handle_manager_ReleaseHandle handle; ThrowIfError status)
                (interleave [] (record (EvPollHandle handle (Ok true)) w)))
      as [[u|e] w3]; cbn [snd] in *; rewrite Hm;
    apply (ReleaseHandle_other_handles handle (handle_manager w)).
  1, 2, 4: by split.
  apply (IH (snd (sleep_for 1
                    (interleave [] (record (EvPollHandle handle (Ok false)) w))))).
Qed.

(** X15: a registry whose live handles all came from the counter stays so
    under every call of DoPushPull, every run of a continuation and every
    run of WaitAndClear, whatever other threads do meanwhile. *)
Theorem registry_wf_preserved (w : World) :
  HandleManager.wf (handle_manager w) →
  (∀ tensor output average name version priority,
     HandleManager.wf
       (handle_manager
          (snd (DoPushPull tensor output average name version priority w)))) ∧
  (∀ callback status,
     HandleManager.wf (handle_manager (snd (run_callback callback status w)))) ∧
  (∀ fuel schedule handle,
     HandleManager.wf
       (handle_manager (snd (WaitAndClear fuel schedule handle w)))).
Proof.
  intros Hwf. split; [|split].
  - intros tensor output average name version priority.
    destruct (DoPushPull_state tensor output average name version priority w)
      as [_ Hm].
    rewrite Hm. destruct (ok (CheckInitialized (engine w))); [|exact Hwf].
    apply (env_step_wf (handle_manager w) EnvAllocateHandle Hwf).
  - intros callback status.
    destruct (run_callback_registry callback status w) as [Hm _].
    rewrite Hm. by apply env_step_wf.
  - intros fuel schedule handle.
    by apply (WaitAndClear_frame handle fuel schedule w).
Qed.

(** X16: WaitAndClear never touches the engine or a tensor, however long it
    runs and whatever the other threads do; with no other thread at the
    registry it also leaves the handle counter and every other handle's
    entry as they were. *)
Theorem WaitAndClear_footprint fuel schedule handle (w : World) :
  (let w' := snd (WaitAndClear fuel schedule handle w) in
   engine w' = engine w ∧ heap w' = heap w) ∧
  (let w' := snd (WaitAndClear fuel [] handle w) in
   HandleManager.last_handle (handle_manager w') =
     HandleManager.last_handle (handle_manager w) ∧
   ∀ h, h ≠ handle →
        HandleManager.results (handle_manager w') !! h =
        HandleManager.results (handle_manager w) !! h).
Proof.
  split.
  - destruct (WaitAndClear_frame handle fuel schedule w) as (He & Hh & _).
    by split.
  - apply WaitAndClear_alone_others.
Qed.

End MoreWaiting.

(** ** Further properties of the stage plan and of the module *)

(** Settle a decidable statement about concrete data by evaluating its
    decision procedure. *)
Ltac decide_by_computation :=
  match goal with
  | |- ?P => apply (bool_decide_unpack P); vm_compute; exact I
  end.

(** X17: in every stage plan no stage occurs twice; the stages that touch
    the host and the network (COPYD2H, PUSH, PULL, COPYH2D) occur exactly on
    the root of a distributed job, and the coordination stages exactly on a
    non-root worker; a plan has two, six or four stages. *)
Theorem stage_plan_membership (is_root is_distributed : bool) :
  let plan := build_queue_list is_root is_distributed in
  NoDup plan ∧
  (∀ q, q ∈ [COPYD2H; PUSH; PULL; COPYH2D] →
        (q ∈ plan ↔ is_root = true ∧ is_distributed = true)) ∧
  (∀ q, q ∈ [COORDINATE_REDUCE; COORDINATE_BROADCAST] →
        (q ∈ plan ↔ is_root = false)) ∧
  length plan =
    (if is_root then if is_distributed then 6 else 2 else 4)%nat.
Proof.
  cbv zeta. split; [|split; [|split]].
  - destruct is_root, is_distributed; decide_by_computation.
  - intros q. destruct is_root, is_distributed, q; decide_by_computation.
  - intros q. destruct is_root, is_distributed, q; decide_by_computation.
  - destruct is_root, is_distributed; reflexivity.
Qed.

(** X18: the module binds every name once; each push_pull name, whatever the
    tensor type in it, is bound to DoPushPull, the poll and wait names to
    PollHandle and WaitAndClear; a build with HAVE_CUDA has the seven
    bindings of a build without it and the five cuda names besides. *)
Theorem c_lib_bindings (have_cuda : bool) :
  NoDup (c_lib have_cuda).*1 ∧
  (∀ name f, (name, f) ∈ c_lib have_cuda →
     (f = Export_DoPushPull ↔
      String.prefix "byteps_torch_push_pull_async_torch_" name = true) ∧
     (f = Export_PollHandle ↔ name = "byteps_torch_poll") ∧
     (f = Export_WaitAndClear ↔ name = "byteps_torch_wait_and_clear")) ∧
  (∀ binding, binding ∈ c_lib false → binding ∈ c_lib have_cuda) ∧
  length (c_lib have_cuda) = (if have_cuda then 12 else 7)%nat.
Proof.
  split; [|split; [|split]].
  - destruct have_cuda; decide_by_computation.
  - intros name f Hin. destruct have_cuda; cbn in Hin;
      repeat (apply elem_of_cons in Hin as [[= -> ->]|Hin];
              [decide_by_computation|]);
      by apply elem_of_nil in Hin.
  - intros binding Hin. destruct have_cuda; [|exact Hin].
    cbn in Hin.
    repeat (apply elem_of_cons in Hin as [->|Hin]; [decide_by_computation|]).
    by apply elem_of_nil in Hin.
  - destruct have_cuda; reflexivity.
Qed.

(** ** The further properties at work on the small engine *)

Lemma GetOpName_unnamed_inj_witness :
  GetOpName "byteps" "" 7 = GetOpName "byteps" "" (3 + 4) ∧ 7 = 3 + 4.
Proof.
  split; [reflexivity|]. apply (GetOpName_unnamed_inj "byteps" 7 (3 + 4)).
  reflexivity.
Defined.

Lemma GetOpName_named_inj_witness :
  "grad1" ≠ "" ∧ c_str "grad1" ≠ "" ∧
  (GetOpName "byteps" "grad1" 1 = GetOpName "byteps" "grad1" 2) ∧
  (GetOpName "byteps" "grad1" 1 = GetOpName "byteps" (c_str "grad1") 2 →
   "grad1" = c_str "grad1").
Proof.
  assert (H1 : "grad1" ≠ "") by discriminate.
  assert (H2 : c_str "grad1" ≠ "") by discriminate.
  split; [exact H1|]. split; [exact H2|].
  exact (GetOpName_named_inj "byteps" "grad1" (c_str "grad1") 1 2 H1 H2).
Defined.

Lemma DoPushPull_identity_of_label_witness :
  let w := Sim.world Sim.ready 0 in
  let name := "g" +:+ String Ascii.zero "tail" in
  CheckInitialized (engine w) = OK ∧
  let identity :=
    if empty (c_str name) then "byteps.noname.0" else "byteps." +:+ c_str name in
  let evs := new_events w (snd (DoPushPull Sim.grad Sim.out 1 name 0 0 w)) in
  identity = "byteps.g" ∧
  (∀ ev n, ev ∈ evs → event_name ev = Some n → n = identity) ∧
  ∃ before device callback plan answer,
    evs = before ++
          [EvEnqueueTensor {| tensor_ := Sim.grad |} {| tensor_ := Sim.out |}
             identity device 0 0 callback plan answer].
Proof.
  intros w name. split; [reflexivity|]. cbv zeta. split; [reflexivity|].
  apply (DoPushPull_identity_of_label Sim.grad Sim.out 1 name 0 0 w).
  reflexivity.
Defined.

Lemma DoPushPull_handle_fresh_and_pending_witness :
  let w := Sim.world Sim.rejecting 0 in
  CheckInitialized (engine w) = OK ∧
  HandleManager.wf (handle_manager w) ∧
  let '(r, w') := DoPushPull Sim.grad Sim.out 1 "grad1" 0 0 w in
  let handle := HandleManager.last_handle (handle_manager w) + 1 in
  HandleManager.results (handle_manager w) !! handle = None ∧
  HandleManager.results (handle_manager w') !! handle = Some None ∧
  (∀ h, h ≠ handle →
        HandleManager.results (handle_manager w') !! h =
        HandleManager.results (handle_manager w) !! h) ∧
  HandleManager.last_handle (handle_manager w') = handle ∧
  (∀ h, r = Ok h → h = handle) ∧
  (∀ input output' n device p v callback plan answer,
     EvEnqueueTensor input output' n device p v callback plan answer
       ∈ new_events w w' →
     callback =
       {| cb_handle := handle; cb_average := 1; cb_tensor := Sim.grad |}).
Proof.
  intros w. split; [reflexivity|]. split; [exact wf_init|].
  apply (DoPushPull_handle_fresh_and_pending Sim.grad Sim.out 1 "grad1" 0 0 w);
    [reflexivity|exact wf_init].
Defined.

Lemma DoPushPull_successive_handles_witness :
  let w := Sim.world Sim.ready 0 in
  let w1 := snd (DoPushPull Sim.grad Sim.out 1 "grad1" 0 0 w) in
  let w2 := snd (DoPushPull Sim.cuda_grad Sim.cuda_grad 0 "" 0 0 w1) in
  DoPushPull Sim.grad Sim.out 1 "grad1" 0 0 w = (Ok 1, w1) ∧
  DoPushPull Sim.cuda_grad Sim.cuda_grad 0 "" 0 0 w1 = (Ok 2, w2) ∧
  2 = 1 + 1 ∧ 1 ≠ 2 ∧
  HandleManager.results (handle_manager w2) !! 1 = Some None ∧
  HandleManager.results (handle_manager w2) !! 2 = Some None.
Proof.
  intros w w1 w2.
  assert (H1 : DoPushPull Sim.grad Sim.out 1 "grad1" 0 0 w = (Ok 1, w1))
    by (vm_compute; reflexivity).
  assert (H2 : DoPushPull Sim.cuda_grad Sim.cuda_grad 0 "" 0 0 w1 = (Ok 2, w2))
    by (vm_compute; reflexivity).
  split; [exact H1|]. split; [exact H2|].
  exact (DoPushPull_successive_handles _ _ _ _ _ _ _ _ _ _ _ _ w w1 w2 1 2 H1 H2).
Defined.

Lemma push_pull_then_wait_witness :
  let w := Sim.world Sim.ready 0 in
  let w1 := snd (DoPushPull Sim.grad Sim.out 1 "grad1" 0 0 w) in
  let status := Failure "connection reset" in
  HandleManager.wf (handle_manager w) ∧
  DoPushPull Sim.grad Sim.out 1 "grad1" 0 0 w = (Ok 1, w1) ∧
  let callback := {| cb_handle := 1; cb_average := 1; cb_tensor := Sim.grad |} in
  let '(r2, w2) := run_callback callback status w1 in
  let '(outcome, w3) := WaitAndClear 0 [] 1 w2 in
  r2 = Ok tt ∧
  outcome = Raised (StatusError "connection reset") ∧
  new_events w2 w3 = [EvPollHandle 1 (Ok true); EvReleaseHandle 1 (Ok status)] ∧
  HandleManager.results (handle_manager w3) =
    HandleManager.results (handle_manager w) ∧
  heap w3 = (if 1 =? 0 then heap w else div_ Sim.grad (byteps_size (engine w1)) (heap w)).
Proof.
  intros w w1 status.
  assert (Hrun : DoPushPull Sim.grad Sim.out 1 "grad1" 0 0 w = (Ok 1, w1))
    by (vm_compute; reflexivity).
  split; [exact wf_init|]. split; [exact Hrun|].
  exact (push_pull_then_wait Sim.grad Sim.out 1 "grad1" 0 0 w w1 1 status 0%nat
           wf_init Hrun).
Defined.

Lemma WaitAndClear_unknown_handle_witness :
  let w := Sim.waiting in
  let schedule := [[EnvAllocateHandle]] in
  HandleManager.results (handle_manager w) !! 2 = None ∧
  let '(outcome, w') := WaitAndClear 3 schedule 2 w in
  outcome = Raised (UnknownHandle 2) ∧
  new_events w w' = [EvPollHandle 2 (Throw (UnknownHandle 2))] ∧
  handle_manager w' = handle_manager w.
Proof.
  intros w schedule. split; [reflexivity|].
  apply (WaitAndClear_unknown_handle 3 schedule 2 w). reflexivity.
Defined.

Lemma WaitAndClear_twice_witness :
  let callback := {| cb_handle := 1; cb_average := 0; cb_tensor := Sim.grad |} in
  let w := snd (run_callback callback OK Sim.waiting) in
  HandleManager.results (handle_manager w) !! 1 = Some (Some OK) ∧
  let '(outcome1, w1) := WaitAndClear 0 [] 1 w in
  let '(outcome2, w2) := WaitAndClear 5 [] 1 w1 in
  outcome1 = Returned ∧
  outcome2 = Raised (UnknownHandle 1) ∧
  handle_manager w2 = handle_manager w1 ∧
  HandleManager.results (handle_manager w1) =
    delete 1 (HandleManager.results (handle_manager w)).
Proof.
  intros callback w. split; [reflexivity|].
  apply (WaitAndClear_twice 0 5 1 OK w). reflexivity.
Defined.

Lemma WaitAndClear_keeps_waiting_witness :
  let w := Sim.waiting in
  let schedule := [[EnvAllocateHandle]; [EnvMarkDone 2 OK]] in
  (∀ i, (i ≤ 2)%nat →
     HandleManager.results (registry_after i schedule (handle_manager w)) !! 1 =
       Some None) ∧
  let '(outcome, w') := WaitAndClear 2 schedule 1 w in
  outcome = StillWaiting ∧
  new_events w w' = waiting_rounds 2 1 ++ [EvPollHandle 1 (Ok false)] ∧
  List.filter is_ReleaseHandle (new_events w w') = [] ∧
  handle_manager w' = registry_after 2 schedule (handle_manager w).
Proof.
  intros w schedule.
  assert (Hpending : ∀ i, (i ≤ 2)%nat →
     HandleManager.results (registry_after i schedule (handle_manager w)) !! 1 =
       Some None).
  { intros i Hi. destruct i as [|[|[|i]]]; [reflexivity..|lia]. }
  split; [exact Hpending|].
  exact (WaitAndClear_keeps_waiting 2 schedule 1 w Hpending).
Defined.

Lemma registry_wf_preserved_witness :
  let w := Sim.waiting in
  HandleManager.wf (handle_manager w) ∧
  (∀ tensor output average name version priority,
     HandleManager.wf
       (handle_manager
          (snd (DoPushPull tensor output average name version priority w)))) ∧
  (∀ callback status,
     HandleManager.wf (handle_manager (snd (run_callback callback status w)))) ∧
  (∀ fuel schedule handle,
     HandleManager.wf
       (handle_manager (snd (WaitAndClear fuel schedule handle w)))).
Proof.
  intros w.
  assert (Hwf : HandleManager.wf (handle_manager w)).
  { apply (env_step_wf HandleManager.init EnvAllocateHandle), wf_init. }
  split; [exact Hwf|]. exact (registry_wf_preserved w Hwf).
Defined.
